(** * mkdocstrings.extension: the autodoc block processor and its tree passes

    A shallow embedding of [src/mkdocstrings/extension.py]: the
    [AutoDocProcessor] block processor ([run], [_process_block]) and the two
    tree processors ([_HeadingsPostProcessor], [_TocLabelsTreeProcessor]),
    followed by the properties of each. *)

From Stdlib Require Import ZArith Ascii String List Bool Lia.
From stdpp Require Import base option list gmap strings pretty.

Set Warnings "-register-all".

Local Open Scope Z_scope.
Local Open Scope stdpp_scope.

(** ** Python values and outcomes *)

(** The values [yaml.safe_load] can produce (floats, dates and non-string
    mapping keys are left out).  A mapping is kept as the list of its items in
    insertion order; a key is looked up at its first item. *)
Inductive py_value : Type :=
  | PyNone
  | PyBool (b : bool)
  | PyInt (z : Z)
  | PyStr (s : string)
  | PyList (items : list py_value)
  | PyDict (items : list (string * py_value)).

(** Python's truth value, as used by [if x], [x or y] and [x and y]. *)
Definition truthy (v : py_value) : bool :=
  match v with
  | PyNone => false
  | PyBool b => b
  | PyInt z => negb (z =? 0)
  | PyStr s => negb (String.eqb s "")
  | PyList items => match items with [] => false | _ => true end
  | PyDict items => match items with [] => false | _ => true end
  end.

(** Truth value of a [str]: the empty string is the only falsy one. *)
Definition str_truthy (s : string) : bool := negb (String.eqb s "").

(** [x or ""] for an optional string [x]. *)
Definition or_empty (x : option string) : string :=
  match x with
  | Some s => s
  | None => ""
  end.

(** The exceptions that cross the functions of this module. *)
Inductive exn : Type :=
  | YAMLError (msg : string)
  | CollectionError (msg : string)
  | PluginError (msg : string)
  | TemplateNotFound (template : string)
  | KeyError (key : string)
  | IndexError
  | AttributeError
  | TypeError
  | OtherError (msg : string).

(** A call either returns a value or raises. *)
Inductive outcome (A : Type) : Type :=
  | Returned (a : A)
  | Raised (e : exn).
Arguments Returned {A} a.
Arguments Raised {A} e.

#[global] Instance outcome_ret : MRet outcome := fun A a => Returned a.

#[global] Instance outcome_bind : MBind outcome := fun A B k m =>
  match m with
  | Returned a => k a
  | Raised e => Raised e
  end.

(** ** [_TocLabelsTreeProcessor] *)

(** A token of [md.toc_tokens].  [data_toc_label] is what
    [token.get("data-toc-label")] returns: [None] when the key is absent. *)
Inductive TocToken : Type :=
  Token {
    level : Z;
    id : string;
    name : string;
    data_toc_label : option string;
    children : list TocToken
  }.

(** Induction on a token with the hypothesis for each of its children. *)
Section TocToken_induction.
Variable P : TocToken -> Prop.
Hypothesis step : forall lv i nm label ch,
  Forall P ch -> P (Token lv i nm label ch).

Fixpoint TocToken_nested_ind (t : TocToken) : P t :=
  match t with
  | Token lv i nm label ch =>
      step lv i nm label ch
        ((fix all (ts : list TocToken) : Forall P ts :=
            match ts with
            | [] => @List.Forall_nil _ P
            | t' :: ts' =>
                @List.Forall_cons _ P t' ts' (TocToken_nested_ind t') (all ts')
            end) ch)
  end.
End TocToken_induction.

(** The condition of the [if] in [_override_toc_labels]:
    [(label := token.get("data-toc-label")) and token["name"] != label]. *)
Definition label_overrides (token_name : string) (label : option string) : bool :=
  match label with
  | Some l => str_truthy l && negb (String.eqb token_name l)
  | None => false
  end.

(** The body of the [for token in tokens] loop: the name is overwritten when
    the condition holds, then the children are processed. *)
Fixpoint override_token (token : TocToken) : TocToken :=
  match token with
  | Token lv i nm label ch =>
      let nm' := if label_overrides nm label then or_empty label else nm in
      Token lv i nm' label (map override_token ch)
  end.

Definition _override_toc_labels (tokens : list TocToken) : list TocToken :=
  map override_token tokens.

(** The token reached from a list of tokens by a non-empty path of child
    indexes. *)
Fixpoint token_at (path : list nat) (tokens : list TocToken) : option TocToken :=
  match path with
  | [] => None
  | i :: rest =>
      match tokens !! i with
      | None => None
      | Some t => match rest with [] => Some t | _ => token_at rest (children t) end
      end
  end.

(** Number of tokens in a forest. *)
Fixpoint token_count (t : TocToken) : nat :=
  match t with
  | Token _ _ _ _ ch => S (list_sum (map token_count ch))
  end.

Definition forest_count (tokens : list TocToken) : nat :=
  list_sum (map token_count tokens).

(** ** [_HeadingsPostProcessor] *)

(** An [xml.etree.ElementTree.Element]: tag, attributes, the text before the
    first child, the text after the closing tag, and the children. *)
Inductive Element : Type :=
  mkElement {
    tag : string;
    attrib : gmap string string;
    text : option string;
    tail : option string;
    subelements : list Element
  }.

(** Induction on an element with the hypothesis for each of its children. *)
Section Element_induction.
Variable P : Element -> Prop.
Hypothesis step : forall tg at_ tx tl ch,
  Forall P ch -> P (mkElement tg at_ tx tl ch).

Fixpoint Element_nested_ind (el : Element) : P el :=
  match el with
  | mkElement tg at_ tx tl ch =>
      step tg at_ tx tl ch
        ((fix all (els : list Element) : Forall P els :=
            match els with
            | [] => @List.Forall_nil _ P
            | c :: cs => @List.Forall_cons _ P c cs (Element_nested_ind c) (all cs)
            end) ch)
  end.
End Element_induction.

(** [el.tag == "div" and el.get("class") == "mkdocstrings"]. *)
Definition is_duplicate_container (el : Element) : bool :=
  String.eqb (tag el) "div" &&
  match attrib el !! "class" with
  | Some c => String.eqb c "mkdocstrings"
  | None => false
  end.

(** [el.tail = (el.tail or "") + carry_text], guarded by [if carry_text]. *)
Definition carry_into_tail (carry_text : string) (el : Element) : Element :=
  if str_truthy carry_text
  then mkElement (tag el) (attrib el) (text el)
                 (Some (or_empty (tail el) +:+ carry_text)) (subelements el)
  else el.

(** [parent.text = (parent.text or "") + carry_text], guarded by
    [if carry_text]. *)
Definition carry_into_text (carry_text : string) (parent_text : option string)
  : option string :=
  if str_truthy carry_text
  then Some (or_empty parent_text +:+ carry_text)
  else parent_text.

(** [_remove_duplicated_headings(parent)].  The children are given in document
    order and the loop visits them from the last to the first, so the state
    after the later siblings ([kept] children and [carry_text]) is computed
    before a child is handled.  A duplicated container is dropped from the
    children and its text is put in front of the carry; any other child
    receives the pending carry in its tail and is processed recursively.  The
    recursive call does not read or write the tail of its argument
    ([remove_duplicated_headings_tail] below), so the tail is set on its
    result. *)
Fixpoint _remove_duplicated_headings (parent : Element) : Element :=
  match parent with
  | mkElement tg at_ tx tl ch =>
      let '(kept, carry_text) :=
        (fix loop (els : list Element) : list Element * string :=
           match els with
           | [] => ([], "")
           | el :: later =>
               let '(kept, carry_text) := loop later in
               if is_duplicate_container el
               then (kept, or_empty (text el) +:+ carry_text)
               else (carry_into_tail carry_text (_remove_duplicated_headings el) :: kept,
                     "")
           end) ch in
      mkElement tg at_ (carry_into_text carry_text tx) tl kept
  end.

(** The loop of [_remove_duplicated_headings] over the children of one
    parent: the children that stay, and the carry left for the parent. *)
Fixpoint process_children (els : list Element) : list Element * string :=
  match els with
  | [] => ([], "")
  | el :: later =>
      let '(kept, carry_text) := process_children later in
      if is_duplicate_container el
      then (kept, or_empty (text el) +:+ carry_text)
      else (carry_into_tail carry_text (_remove_duplicated_headings el) :: kept, "")
  end.

(** [_HeadingsPostProcessor.run]. *)
Definition headings_post_processor_run (root : Element) : Element :=
  _remove_duplicated_headings root.

(** No duplicated container below an element (the element itself is not
    looked at, as the pass never tests its argument). *)
Fixpoint no_duplicate_below (el : Element) : bool :=
  match el with
  | mkElement _ _ _ _ ch =>
      forallb (fun c => negb (is_duplicate_container c) && no_duplicate_below c) ch
  end.

(** The text of an element in document order, as [itertext] gives it: its
    own text, then for each child the child's text followed by its tail. *)
Fixpoint inner_text (el : Element) : string :=
  match el with
  | mkElement _ _ tx _ ch =>
      or_empty tx +:+
      fold_right (fun c acc => inner_text c +:+ or_empty (tail c) +:+ acc) "" ch
  end.

(** The text the pass is meant to keep: as [inner_text], but a duplicated
    container contributes its own text only (neither its headings nor its
    tail). *)
Fixpoint kept_text (el : Element) : string :=
  match el with
  | mkElement _ _ tx _ ch =>
      or_empty tx +:+
      fold_right (fun c acc =>
                    (if is_duplicate_container c then or_empty (text c)
                     else kept_text c +:+ or_empty (tail c)) +:+ acc) "" ch
  end.






(** ** Strings as Python uses them *)

Definition newline : string := String "010"%char "".

(** [s[:n]] and [s[n:]] for [0 <= n]. *)
Fixpoint str_take (n : nat) (s : string) : string :=
  match n, s with
  | S n', String c s' => String c (str_take n' s')
  | _, _ => ""
  end.

Fixpoint str_drop (n : nat) (s : string) : string :=
  match n, s with
  | S n', String _ s' => str_drop n' s'
  | _, _ => s
  end.

(** [s.startswith(p)]. *)
Fixpoint startswith (p s : string) : bool :=
  match p, s with
  | "", _ => true
  | String a p', String b s' => Ascii.eqb a b && startswith p' s'
  | String _ _, "" => false
  end.

(** [s.split("\n")]: never empty, the lines carry no line break. *)
Fixpoint split_lines (s : string) : list string :=
  match s with
  | "" => [""]
  | String c s' =>
      if Ascii.eqb c "010"
      then "" :: split_lines s'
      else match split_lines s' with
           | line :: lines => String c line :: lines
           | [] => [String c ""]
           end
  end.

(** ["\n".join(lines)]. *)
Fixpoint join_lines (lines : list string) : string :=
  match lines with
  | [] => ""
  | [line] => line
  | line :: rest => line +:+ newline +:+ join_lines rest
  end.

(** [" " * n]. *)
Fixpoint spaces (n : nat) : string :=
  match n with
  | O => ""
  | S n' => String " " (spaces n')
  end.

(** The characters [str.strip()] removes, a character being a code point
    below 256: the white space of ASCII (9 to 13, 28 to 32), the next-line
    control U+0085 and the no-break space U+00A0. *)
Definition is_py_space (c : ascii) : bool :=
  let n := nat_of_ascii c in
  ((9 <=? n) && (n <=? 13) || (28 <=? n) && (n <=? 32) ||
   (n =? 133) || (n =? 160))%nat.

(** [not line.strip()]: the line has white space only. *)
Fixpoint is_blank (s : string) : bool :=
  match s with
  | "" => true
  | String c s' => is_py_space c && is_blank s'
  end.

(** ** The instruction regex

    [regex = re.compile(r"^(?P<heading>#{1,6} *|)::: ?(?P<name>.+?) *$",
    flags=re.MULTILINE)].  With [re.MULTILINE], [^] holds at the start of the
    block and after each line break, [$] at its end and before each line
    break, and [.] never matches a line break: a match covers one whole line
    of the block, and [search] returns the first line that matches. *)

(** Length and rest of the longest prefix made of the character [c]. *)
Fixpoint span_char (c : ascii) (s : string) : nat * string :=
  match s with
  | "" => (O, "")
  | String a s' =>
      if Ascii.eqb a c
      then let '(n, rest) := span_char c s' in (S n, rest)
      else (O, s)
  end.

(** The string without its trailing blanks (the character [" "] only). *)
Fixpoint rstrip_blanks (s : string) : string :=
  match s with
  | "" => ""
  | String c s' =>
      let t := rstrip_blanks s' in
      if Ascii.eqb c " " && String.eqb t "" then "" else String c t
  end.

(** [(?P<name>.+?) *$] on the rest of a line: the lazy group takes one
    character, then as few more as leave only blanks up to the end of the
    line. *)
Definition match_name (rest : string) : option string :=
  match rest with
  | "" => None
  | String c rest' => Some (String c (rstrip_blanks rest'))
  end.

(** [ ?(?P<name>.+?) *$]: the optional blank is taken when one is there,
    unless nothing would be left for the name. *)
Definition match_after_colons (rest : string) : option string :=
  match rest with
  | String " " (String c rest') => match_name (String c rest')
  | _ => match_name rest
  end.

(** The whole regex on one line: the number of [#] in the group [heading]
    and the group [name].  The first alternative of [heading] takes all the
    [#] (one to six) and all the blanks after them; giving some back never
    helps, since [:::] must follow. *)
Definition match_line (line : string) : option (nat * string) :=
  let '(hashes, after_hashes) := span_char "#" line in
  let after_heading :=
    if (hashes =? 0)%nat then Some line
    else if (hashes <=? 6)%nat then Some (span_char " " after_hashes).2
    else None in
  match after_heading with
  | Some rest =>
      if startswith ":::" rest
      then name ← match_after_colons (str_drop 3 rest); Some (hashes, name)
      else None
  | None => None
  end.

(** A match object: [start()], [end()], the count of [#] in [heading], and
    [name]. *)
Record Match : Type := mkMatch {
  match_start : nat;
  match_end : nat;
  match_hashes : nat;
  match_name_group : string
}.

(** [search] over the lines of a block, [offset] being the index where the
    first of them starts. *)
Fixpoint search_lines (offset : nat) (lines : list string) : option Match :=
  match lines with
  | [] => None
  | line :: rest =>
      match match_line line with
      | Some (hashes, name) =>
          Some (mkMatch offset (offset + String.length line) hashes name)
      | None => search_lines (offset + String.length line + 1) rest
      end
  end.

(** [regex.search(block)]. *)
Definition regex_search (block : string) : option Match :=
  search_lines 0 (split_lines block).

(** [AutoDocProcessor.test]. *)
Definition test (block : string) : bool :=
  match regex_search block with
  | Some _ => true
  | None => false
  end.

(** [BlockProcessor.detab] of Python-Markdown, which [AutoDocProcessor]
    inherits: the leading lines that start with [length] blanks lose them,
    the white-space-only lines among them become empty, and the first other
    line ends the region.  It returns the joined region and the joined
    remaining lines. *)
Fixpoint detab_lines (length : nat) (lines : list string) : list string :=
  match lines with
  | [] => []
  | line :: rest =>
      if startswith (spaces length) line
      then str_drop length line :: detab_lines length rest
      else if is_blank line then "" :: detab_lines length rest
      else []
  end.

Definition detab (length : nat) (text : string) : string * string :=
  let lines := split_lines text in
  let newtext := detab_lines length lines in
  (join_lines newtext, join_lines (drop (List.length newtext) lines)).

(** ** Option layering *)

(** [items[key]] on the items of a [dict]. *)
Fixpoint dict_lookup (key : string) (items : list (string * py_value))
  : option py_value :=
  match items with
  | [] => None
  | (k, v) :: rest => if String.eqb k key then Some v else dict_lookup key rest
  end.

(** [value.get(key, default)]: only a [dict] has the method. *)
Definition py_get (value : py_value) (key : string) (default : py_value)
  : outcome py_value :=
  match value with
  | PyDict items => Returned (from_option (fun v => v) default (dict_lookup key items))
  | _ => Raised AttributeError
  end.

(** What [_process_block] hands to a handler as options: a
    [collections.ChainMap] over objects that are meant to be mappings. *)
Inductive Mapping : Type :=
  | Plain (value : py_value)
  | ChainMap (maps : list Mapping).

(** [mapping[key]].  [ChainMap.__getitem__] tries its maps in order and goes
    on to the next one on [KeyError] only; subscripting a value that is not a
    [dict] with a string raises [TypeError]. *)
Fixpoint getitem (mapping : Mapping) (key : string) : outcome py_value :=
  match mapping with
  | Plain (PyDict items) =>
      match dict_lookup key items with
      | Some v => Returned v
      | None => Raised (KeyError key)
      end
  | Plain _ => Raised TypeError
  | ChainMap maps =>
      (fix first_of (ms : list Mapping) : outcome py_value :=
         match ms with
         | [] => Raised (KeyError key)
         | m :: rest =>
             match getitem m key with
             | Raised (KeyError _) => first_of rest
             | result => result
             end
         end) maps
  end.

(** Lines 203-206 of [_process_block]:
    [options = ChainMap(local_options, global_options)], then
    [if heading_level: options = ChainMap(options, {"heading_level": heading_level})]. *)
Definition build_options (local_options global_options : py_value)
    (heading_level : Z) : Mapping :=
  let options := ChainMap [Plain local_options; Plain global_options] in
  if negb (heading_level =? 0)
  then ChainMap [options; Plain (PyDict [("heading_level", PyInt heading_level)])]
  else options.

(** ** Collaborators and state of the block processor *)

(** An entry of the inventory ([mkdocstrings.inventory.InventoryItem]). *)
Record InventoryItem : Type := mkInventoryItem {
  item_name : string;
  item_domain : string;
  item_role : string;
  item_priority : Z;
  item_uri : string
}.

(** A handler, seen through the values its methods return.
    [get_headings()] returns the headings recorded while the handler's last
    render ran; here it is given the item that was rendered.  [_update_env]
    is the outcome of the hook; that it was called is recorded in the
    state. *)
Record BaseHandler (CollectorItem : Type) : Type := mkHandler {
  domain : string;
  fallback_config : py_value;
  collect : string -> Mapping -> outcome CollectorItem;
  render : CollectorItem -> Mapping -> outcome string;
  get_headings : CollectorItem -> list Element;
  get_anchors : CollectorItem -> list string;
  _update_env : outcome unit
}.
Arguments domain {CollectorItem} _.
Arguments fallback_config {CollectorItem} _.
Arguments collect {CollectorItem} _ _ _.
Arguments render {CollectorItem} _ _ _.
Arguments get_headings {CollectorItem} _ _.
Arguments get_anchors {CollectorItem} _ _.
Arguments _update_env {CollectorItem} _.

(** The methods of the handlers container ([mkdocstrings.handlers.base.Handlers])
    that [_process_block] calls. *)
Record Handlers (CollectorItem : Type) : Type := mkHandlers {
  get_handler_name : py_value -> outcome string;
  get_handler_config : string -> outcome py_value;
  get_handler : string -> py_value -> outcome (BaseHandler CollectorItem)
}.
Arguments get_handler_name {CollectorItem} _ _.
Arguments get_handler_config {CollectorItem} _ _.
Arguments get_handler {CollectorItem} _ _ _.

(** What the processor reads and writes across calls:
    [self._updated_envs], [self._handlers.inventory], the anchors given to
    [self._autorefs.register_anchor] (oldest first), the texts given to
    [self.md.htmlStash.store] (oldest first), and the handler names for which
    [handler._update_env] was called (oldest first). *)
Record State : Type := mkState {
  _updated_envs : gset string;
  inventory : gmap string InventoryItem;
  registered_anchors : list (string * string);
  html_stash : list string;
  env_updates : list string
}.

Definition initial_state : State := mkState ∅ ∅ [] [] [].

(** A method of the processor: it starts in a state and ends, by returning
    or by raising, in a state. *)
Definition M (A : Type) : Type := State -> outcome A * State.

#[global] Instance M_ret : MRet M := fun A a s => (Returned a, s).

#[global] Instance M_bind : MBind M := fun A B k m s =>
  match m s with
  | (Returned a, s') => k a s'
  | (Raised e, s') => (Raised e, s')
  end.

(** A call that does not touch the state. *)
Definition lift {A : Type} (r : outcome A) : M A := fun s => (r, s).

Definition raise {A : Type} (e : exn) : M A := fun s => (Raised e, s).

(** [self._updated_envs.add(handler_name)]. *)
Definition add_updated_env (handler_name : string) : M unit := fun s =>
  (Returned (),
   mkState ({[handler_name]} ∪ _updated_envs s) (inventory s)
           (registered_anchors s) (html_stash s) (env_updates s)).

(** [handler._update_env(self.md, self._config)] for the handler resolved
    from [handler_name]. *)
Definition call_update_env {CollectorItem : Type}
    (handler_name : string) (handler : BaseHandler CollectorItem) : M unit := fun s =>
  (_update_env handler,
   mkState (_updated_envs s) (inventory s) (registered_anchors s) (html_stash s)
           (env_updates s ++ [handler_name])).

(** [self._autorefs.register_anchor(page, rendered_anchor)]. *)
Definition register_anchor (page rendered_anchor : string) : M unit := fun s =>
  (Returned (),
   mkState (_updated_envs s) (inventory s)
           (registered_anchors s ++ [(page, rendered_anchor)]) (html_stash s)
           (env_updates s)).

Definition set_inventory (inv : gmap string InventoryItem) (s : State) : State :=
  mkState (_updated_envs s) inv (registered_anchors s) (html_stash s) (env_updates s).

(** ** [AutoDocProcessor] *)

Section AutoDocProcessor.

(** The data a handler collects is opaque to the processor. *)
Variable CollectorItem : Type.

(** [yaml.safe_load] (PyYAML): the parsed value, or a [YAMLError]. *)
Variable safe_load : string -> outcome py_value.

(** [self._handlers]. *)
Variable handlers : Handlers CollectorItem.

(** [self._handlers.inventory.register(name=..., domain=..., role=...,
    priority=..., uri=...)] (module [mkdocstrings.inventory]), as a function
    of the entry and the inventory. *)
Variable inventory_register :
  InventoryItem -> gmap string InventoryItem -> gmap string InventoryItem.

(** The placeholder [self.md.htmlStash.store] returns for the n-th stored
    text. *)
Variable placeholder : nat -> string.

(** [self.parser.parseBlocks(parent, blocks)]: the parent after the generic
    parser has added the blocks to it. *)
Variable parseBlocks : Element -> list string -> Element.

(** [self.tab_length] and [self._autorefs.current_page]. *)
Variable tab_length : nat.
Variable current_page : option string.

(** Line 194: [config = yaml.safe_load(yaml_block) or {}]. *)
Definition load_config (yaml_block : string) : outcome py_value :=
  loaded ← safe_load yaml_block;
  mret (if truthy loaded then loaded else PyDict []).

(** Lines 194-195: the handler name a block resolves to. *)
Definition resolve_handler_name (yaml_block : string) : outcome string :=
  config ← load_config yaml_block;
  get_handler_name handlers config.

(** Lines 209-215: [handler.collect(identifier, options)], a
    [CollectionError] being replaced by a [PluginError]. *)
Definition collect_or_fail (handler : BaseHandler CollectorItem)
    (identifier : string) (options : Mapping) : outcome CollectorItem :=
  match collect handler identifier options with
  | Raised (CollectionError _) =>
      Raised (PluginError ("Could not collect '" +:+ identifier +:+ "'"))
  | result => result
  end.

(** Lines 217-220: the environment of a handler is updated when its name is
    not yet in [self._updated_envs], and the name is added after the hook has
    returned. *)
Definition update_env_once (handler_name : string)
    (handler : BaseHandler CollectorItem) : M unit := fun s =>
  if decide (handler_name ∈ _updated_envs s)
  then (Returned (), s)
  else (_ ← call_update_env handler_name handler;
        add_updated_env handler_name) s.

Definition _process_block (identifier yaml_block : string) (heading_level : Z)
  : M (string * BaseHandler CollectorItem * CollectorItem) :=
  config ← lift (load_config yaml_block);
  handler_name ← lift (get_handler_name handlers config);
  handler_config ← lift (get_handler_config handlers handler_name);
  handler ← lift (get_handler handlers handler_name handler_config);
  global_options ← lift (py_get handler_config "options" (PyDict []));
  local_options ← lift (py_get config "options" (PyDict []));
  let options := build_options local_options global_options heading_level in
  data ← lift (collect_or_fail handler identifier options);
  _ ← update_env_once handler_name handler;
  rendered ← lift (render handler data options);
  mret (rendered, handler, data).

(** The calls of [_process_block] of one session, in order; an instruction
    is [(identifier, yaml_block, heading_level)]. *)
Fixpoint process_blocks (instructions : list (string * string * Z)) : M unit :=
  match instructions with
  | [] => mret ()
  | (identifier, yaml_block, heading_level) :: rest =>
      _ ← _process_block identifier yaml_block heading_level;
      process_blocks rest
  end.

(** [self._handlers.inventory.register(...)] on the state. *)
Definition register_item (item : InventoryItem) : M unit := fun s =>
  (Returned (), set_inventory (inventory_register item (inventory s)) s).

(** Lines 156-164: the loop over [handler.get_anchors(data_object)]. *)
Fixpoint register_other_anchors (handler : BaseHandler CollectorItem)
    (role uri : string) (anchors : list string) : M unit :=
  match anchors with
  | [] => mret ()
  | anchor :: rest =>
      _ ← (fun s =>
             match inventory s !! anchor with
             | None =>
                 register_item (mkInventoryItem anchor (domain handler) role 2 uri) s
             | Some _ => (Returned (), s)
             end);
      register_other_anchors handler role uri rest
  end.

(** Lines 139-164: the body of [for heading in headings]. *)
Definition register_heading (page : string) (handler : BaseHandler CollectorItem)
    (heading : Element) : M unit :=
  match attrib heading !! "id" with
  | None => raise (KeyError "id")
  | Some rendered_anchor =>
      _ ← register_anchor page rendered_anchor;
      match attrib heading !! "data-role" with
      | None => mret ()
      | Some role =>
          let uri := page +:+ "#" +:+ rendered_anchor in
          _ ← register_item
                (mkInventoryItem rendered_anchor (domain handler) role 1 uri);
          match collect handler rendered_anchor (Plain (fallback_config handler)) with
          | Raised (CollectionError _) => mret ()
          | Raised e => raise e
          | Returned data_object =>
              register_other_anchors handler role uri
                                     (get_anchors handler data_object)
          end
      end
  end.

Fixpoint register_headings (page : string) (handler : BaseHandler CollectorItem)
    (headings : list Element) : M unit :=
  match headings with
  | [] => mret ()
  | heading :: rest =>
      _ ← register_heading page handler heading;
      register_headings page handler rest
  end.

(** [self.md.htmlStash.store(html)]. *)
Definition stash_store (html : string) : M string := fun s =>
  (Returned (placeholder (List.length (html_stash s))),
   mkState (_updated_envs s) (inventory s) (registered_anchors s)
           (html_stash s ++ [html]) (env_updates s)).

(** What lines 108-121 of [run] work out from the pending blocks, before
    anything is processed: the text given back to the generic parser, the
    match, the configuration text, the unindented rest, and the blocks still
    pending. *)
Record Matched : Type := mkMatched {
  reparsed : option string;
  instruction : option Match;
  yaml_block : string;
  the_rest : string;
  pending : list string
}.

(** [blocks[0].startswith(("    handler:", "    options:"))]. *)
Definition starts_with_config (block : string) : bool :=
  startswith "    handler:" block || startswith "    options:" block.

Definition match_block (blocks : list string) : outcome Matched :=
  match blocks with
  | [] => Raised IndexError
  | block :: blocks =>
      let m := regex_search block in
      let before :=
        match m with
        | Some m => if (0 <? match_start m)%nat
                    then Some (str_take (match_start m) block) else None
        | None => None
        end in
      let block :=
        match m with
        | Some m => str_drop (match_end m) block
        | None => block
        end in
      let '(block, the_rest) := detab tab_length block in
      let '(block, blocks) :=
        match blocks with
        | next :: others =>
            if negb (str_truthy block) && starts_with_config next
            then (next, others) else (block, blocks)
        | [] => (block, blocks)
        end in
      Returned (mkMatched before m block the_rest blocks)
  end.

(** [parent.append(el)]. *)
Definition append_child (parent el : Element) : Element :=
  mkElement (tag parent) (attrib parent) (text parent) (tail parent)
            (subelements parent ++ [el]).

(** [AutoDocProcessor.run]: the parent and the pending blocks it leaves. *)
Definition run (parent : Element) (blocks : list string)
  : M (Element * list string) :=
  matched ← lift (match_block blocks);
  let parent :=
    match reparsed matched with
    | Some before => parseBlocks parent [before]
    | None => parent
    end in
  parent ←
    match instruction matched with
    | Some m =>
        let identifier := match_name_group m in
        let heading_level := Z.of_nat (match_hashes m) in
        '(html, handler, data) ←
          _process_block identifier (yaml_block matched) heading_level;
        stored ← stash_store html;
        let headings := get_headings handler data in
        let el := mkElement "div" {["class" := "mkdocstrings"]} (Some stored) None
                            headings in
        _ ← match current_page with
            | Some page => register_headings page handler headings
            | None => mret ()
            end;
        mret (append_child parent el)
    | None => mret parent
    end;
  mret (parent,
        if str_truthy (the_rest matched)
        then the_rest matched :: pending matched
        else pending matched).

End AutoDocProcessor.

(** The names in [self._updated_envs] are the names the hook was called
    for. *)
Definition envs_recorded (s : State) : Prop :=
  forall n : string, n ∈ _updated_envs s <-> n ∈ env_updates s.

(** Two states with the same [self._updated_envs] and the same record of
    hook calls. *)
Definition same_envs (s s' : State) : Prop :=
  _updated_envs s' = _updated_envs s /\ env_updates s' = env_updates s.

(** A name is added at the end of the names seen unless it is among them. *)
Definition note_name (seen : list string) (n : string) : list string :=
  if decide (n ∈ seen) then seen else seen ++ [n].

(** The first occurrence of each name of a list, in order. *)
Definition first_occurrences (names : list string) : list string :=
  fold_left note_name names [].

(** Modelled from the spec: [Inventory.register] of [mkdocstrings.inventory],
    which is not among the sources; the spec has it enforce that the first
    writer wins: an entry is stored only under a name that has none. *)
Definition register_first_wins (item : InventoryItem)
    (inv : gmap string InventoryItem) : gmap string InventoryItem :=
  match inv !! item_name item with
  | Some _ => inv
  | None => <[item_name item := item]> inv
  end.

(** ** A sample environment

    Concrete collaborators on which the functions above can be run. *)

(** [yaml.safe_load] on the texts used below: the empty text loads as
    [None], mappings load as [dict]s, and the text ["["] (a flow sequence that
    is never closed) raises. *)
Definition sample_safe_load (text : string) : outcome py_value :=
  if String.eqb text "" then Returned PyNone
  else if String.eqb text (newline +:+ "opt: 1")
  then Returned (PyDict [("opt", PyInt 1)])
  else if String.eqb text "handler: demo"
  then Returned (PyDict [("handler", PyStr "demo")])
  else if String.eqb text "["
  then Raised (YAMLError "expected the node content, but found '<stream end>'")
  else Raised (YAMLError "text outside the sample").

(** A handler whose collected item is the identifier itself, which renders a
    paragraph and records one heading with a role. *)
Definition sample_handler : BaseHandler string :=
  mkHandler string "py" (PyDict [])
    (fun identifier _ => Returned identifier)
    (fun data _ => Returned ("<p>" +:+ data +:+ "</p>"))
    (fun data => [mkElement "h2" {["id" := data; "data-role" := "class"]}
                            (Some data) None []])
    (fun data => [data; data +:+ "-alias"])
    (Returned ()).

(** A container with one handler for every name; the name is the block's
    [handler] entry, or the default [python]. *)
Definition sample_handlers : Handlers string :=
  mkHandlers string
    (fun config =>
       match config with
       | PyDict items =>
           match dict_lookup "handler" items with
           | Some (PyStr handler_name) => Returned handler_name
           | Some _ => Raised TypeError
           | None => Returned "python"
           end
       | _ => Raised TypeError
       end)
    (fun _ => Returned (PyDict []))
    (fun _ _ => Returned sample_handler).

Definition sample_placeholder (n : nat) : string :=
  "stash:" +:+ pretty n.

(** A generic parser that turns each block into a paragraph. *)
Definition sample_parseBlocks (parent : Element) (blocks : list string) : Element :=
  mkElement (tag parent) (attrib parent) (text parent) (tail parent)
            (subelements parent ++
             map (fun b => mkElement "p" ∅ (Some b) None []) blocks).

(** The block of the example: a line of text, an instruction, one indented
    line, one unindented line. *)
Definition example_block : string :=
  "prefix" +:+ newline +:+ "::: a.b" +:+ newline +:+ "    opt: 1" +:+ newline +:+
  "suffix".

(** ** Notions used to state the properties *)

(** A string without a line break. *)
Fixpoint no_newline (s : string) : bool :=
  match s with
  | "" => true
  | String c s' => negb (Ascii.eqb c "010") && no_newline s'
  end.

(** ["#" * n]. *)
Fixpoint hashes (n : nat) : string :=
  match n with
  | O => ""
  | S n' => String "#" (hashes n')
  end.

(** [_TocLabelsTreeProcessor.run]: the root is ignored and the tokens of
    [self.md.toc_tokens] are processed. *)
Definition toc_labels_run (root : Element) (toc_tokens : list TocToken)
  : list TocToken :=
  _override_toc_labels toc_tokens.

(** Lines 194-206 of [_process_block], before anything is collected: the
    handler name, the handler and the options a block resolves to. *)
Definition resolve_block {CollectorItem : Type}
    (safe_load : string -> outcome py_value) (handlers : Handlers CollectorItem)
    (yaml_block : string) (heading_level : Z)
  : outcome (string * BaseHandler CollectorItem * Mapping) :=
  config ← load_config safe_load yaml_block;
  handler_name ← get_handler_name handlers config;
  handler_config ← get_handler_config handlers handler_name;
  handler ← get_handler handlers handler_name handler_config;
  global_options ← py_get handler_config "options" (PyDict []);
  local_options ← py_get config "options" (PyDict []);
  mret (handler_name, handler,
        build_options local_options global_options heading_level).

(** Two states that differ at most in [self._updated_envs] and in the record
    of hook calls. *)
Definition same_outputs (s s' : State) : Prop :=
  inventory s' = inventory s /\
  registered_anchors s' = registered_anchors s /\
  html_stash s' = html_stash s.

(** A loader for the texts [handler: name] (and the empty text), and
    handlers that fail at one step: the handler named [nocollect] cannot
    collect, [norender] has no template, and the hook of [nohook] raises. *)
Definition handler_line_load (text : string) : outcome py_value :=
  if String.eqb text "" then Returned PyNone
  else if startswith "handler: " text
  then Returned (PyDict [("handler", PyStr (str_drop 9 text))])
  else Raised (YAMLError "text outside the sample").

Definition faulty_handler (collects renders updates : bool) : BaseHandler string :=
  mkHandler string "py" (PyDict [])
    (fun identifier _ =>
       if collects then Returned identifier
       else Raised (CollectionError "not found"))
    (fun data _ =>
       if renders then Returned data else Raised (TemplateNotFound "class.html"))
    (fun _ => [])
    (fun _ => [])
    (if updates then Returned () else Raised (OtherError "no environment")).

Definition faulty_handlers : Handlers string :=
  mkHandlers string
    (get_handler_name sample_handlers)
    (fun _ => Returned (PyDict []))
    (fun handler_name _ =>
       Returned (faulty_handler (negb (String.eqb handler_name "nocollect"))
                                (negb (String.eqb handler_name "norender"))
                                (negb (String.eqb handler_name "nohook")))).

(** A loader for plain words, which load as strings, and a container that
    gives the default handler whatever the configuration is. *)
Definition word_load (text : string) : outcome py_value :=
  if String.eqb text "" then Returned PyNone else Returned (PyStr text).

Definition default_handlers : Handlers string :=
  mkHandlers string
    (fun _ => Returned "python")
    (fun _ => Returned (PyDict []))
    (fun _ _ => Returned sample_handler).

(** * Properties *)

(** ** TOC labels *)

Lemma override_token_children (t : TocToken) :
  children (override_token t) = _override_toc_labels (children t).
Proof. destruct t; reflexivity. Qed.

Lemma override_token_name (t : TocToken) :
  name (override_token t) =
  if label_overrides (name t) (data_toc_label t)
  then or_empty (data_toc_label t) else name t.
Proof. destruct t; reflexivity. Qed.

Lemma override_token_fields (t : TocToken) :
  level (override_token t) = level t /\
  id (override_token t) = id t /\
  data_toc_label (override_token t) = data_toc_label t.
Proof. destruct t; repeat split. Qed.

(** The pass commutes with following a path: the token found at a path after
    the pass is the processed token found there before. *)
Lemma token_at_override (path : list nat) :
  forall tokens : list TocToken,
    token_at path (_override_toc_labels tokens) =
    override_token <$> token_at path tokens.
Proof.
  induction path as [|i rest IH]; intros tokens; [reflexivity|].
  cbn [token_at]. unfold _override_toc_labels at 1.
  rewrite list_lookup_fmap.
  destruct (tokens !! i) as [t|]; cbn; [|reflexivity].
  destruct rest as [|j rest']; [reflexivity|].
  rewrite override_token_children. apply IH.
Qed.

Lemma override_preserves_count (t : TocToken) :
  token_count (override_token t) = token_count t.
Proof.
  induction t as [lv i nm label ch IH] using TocToken_nested_ind.
  cbn. f_equal. induction IH as [|c ch' Hc _ IHch]; cbn; [reflexivity|].
  rewrite Hc. f_equal. exact IHch.
Qed.

Lemma label_overrides_true (nm : string) (label : option string) :
  label_overrides nm label = true <->
  exists l, label = Some l /\ l <> "" /\ l <> nm.
Proof.
  unfold label_overrides, str_truthy. split.
  - destruct label as [l|]; [|discriminate]. intros H.
    apply andb_true_iff in H as [H1 H2].
    apply negb_true_iff in H1, H2.
    apply String.eqb_neq in H1, H2. exists l. repeat split; congruence.
  - intros (l & -> & H1 & H2). apply andb_true_iff. split; apply negb_true_iff.
    + apply String.eqb_neq. exact H1.
    + apply String.eqb_neq. congruence.
Qed.

(** C8 (as amended).  For every forest of TOC tokens and every path, the pass
    keeps the positions of the forest (a path leads to a token afterwards
    exactly when it did before, and the token count is the same), keeps level,
    id, label and number of children of the token at each position, writes
    the label over the name when the label is a non-empty string that differs
    from the name, whatever happened to the ancestors, and keeps the name of a
    token that has no label. *)
Theorem override_toc_labels_visits_all (tokens : list TocToken) (path : list nat) :
  forest_count (_override_toc_labels tokens) = forest_count tokens /\
  match token_at path tokens, token_at path (_override_toc_labels tokens) with
  | None, None => True
  | Some t, Some t' =>
      level t' = level t /\ id t' = id t /\
      data_toc_label t' = data_toc_label t /\
      length (children t') = length (children t) /\
      (forall label, data_toc_label t = Some label ->
                     label <> "" -> label <> name t -> name t' = label) /\
      (data_toc_label t = None -> name t' = name t)
  | _, _ => False
  end.
Proof.
  split.
  - unfold forest_count, _override_toc_labels.
    induction tokens as [|t ts IH]; cbn; [reflexivity|].
    rewrite override_preserves_count. f_equal. exact IH.
  - rewrite token_at_override.
    destruct (token_at path tokens) as [t|]; cbn; [|exact I].
    destruct (override_token_fields t) as (Hl & Hi & Hd).
    repeat split; try assumption.
    + rewrite override_token_children. unfold _override_toc_labels.
      apply length_map.
    + intros label Hlabel Hne Hdiff. rewrite override_token_name.
      assert (label_overrides (name t) (data_toc_label t) = true) as ->.
      { apply label_overrides_true. exists label. auto. }
      rewrite Hlabel. reflexivity.
    + intros Hnone. rewrite override_token_name, Hnone. reflexivity.
Qed.

(** C8, counterexample.  The claim as first stated (any label that differs
    from the name is written over it) fails for a token whose label is the
    empty string: its name stays. *)
Lemma override_toc_labels_empty_label_counterexample :
  ~ (forall t t' : TocToken,
       _override_toc_labels [t] = [t'] ->
       forall label, data_toc_label t = Some label ->
                     label <> name t -> name t' = label).
Proof.
  intros H.
  specialize (H (Token 1 "foo" "Foo" (Some "") []) (Token 1 "foo" "Foo" (Some "") [])
                eq_refl "" eq_refl).
  cbn in H. discriminate H. discriminate.
Qed.

(** C10.  At every position of a forest of TOC tokens, the name is changed by
    the pass exactly when the label is a non-empty string different from the
    name; a token whose label is the empty string keeps its name, and so does
    a token whose label equals its name. *)
Theorem override_toc_labels_only_nonempty_differing
    (tokens : list TocToken) (path : list nat) (t t' : TocToken) :
  token_at path tokens = Some t ->
  token_at path (_override_toc_labels tokens) = Some t' ->
  (name t' <> name t <->
     exists label, data_toc_label t = Some label /\ label <> "" /\ label <> name t) /\
  (data_toc_label t = Some "" -> name t' = name t) /\
  (data_toc_label t = Some (name t) -> name t' = name t) /\
  (name t' <> name t -> data_toc_label t = Some (name t')).
Proof.
  intros Ht Ht'. rewrite token_at_override, Ht in Ht'. cbn in Ht'.
  injection Ht' as <-. rewrite override_token_name.
  destruct (label_overrides (name t) (data_toc_label t)) eqn:E.
  - apply label_overrides_true in E as (l & Hl & Hne & Hdiff).
    rewrite Hl. cbn. repeat split.
    + intros _. exists l. auto.
    + intros _. exact Hdiff.
    + intros [= ->]. congruence.
    + intros [= ->]. congruence.
  - repeat split; try congruence.
    + intros (l & Hl & Hne & Hdiff).
      assert (label_overrides (name t) (data_toc_label t) = true) as E'
        by (apply label_overrides_true; eauto).
      congruence.
Qed.

Lemma override_toc_labels_only_nonempty_differing_witness :
  let inner := Token 3 "b" "Bar" (Some "") [] in
  let tokens := [Token 2 "a" "Foo" (Some "Quux") [inner]] in
  exists inner',
    token_at [0%nat; 0%nat] tokens = Some inner /\
    token_at [0%nat; 0%nat] (_override_toc_labels tokens) = Some inner' /\
    name inner' = "Bar".
Proof.
  intros inner tokens. exists inner.
  split; [reflexivity|]. split; [reflexivity|].
  exact (proj1 (proj2 (override_toc_labels_only_nonempty_differing
                         tokens [0%nat; 0%nat] inner inner eq_refl eq_refl))
               eq_refl).
Defined.

(** ** Strings *)

Lemma append_empty_r (s : string) : s +:+ "" = s.
Proof.
  induction s as [|a s IH]; [reflexivity|].
  change (String a s +:+ "") with (String a (s +:+ "")). by rewrite IH.
Qed.

Lemma append_assoc (s1 s2 s3 : string) : (s1 +:+ s2) +:+ s3 = s1 +:+ (s2 +:+ s3).
Proof.
  induction s1 as [|a s IH]; [reflexivity|].
  change (String a ((s +:+ s2) +:+ s3) = String a (s +:+ (s2 +:+ s3))).
  by rewrite IH.
Qed.

Lemma str_truthy_false (s : string) : str_truthy s = false <-> s = "".
Proof.
  unfold str_truthy. rewrite negb_false_iff. apply String.eqb_eq.
Qed.

(** ** Duplicated headings *)

(** The pass on a parent is its loop over the children followed by the last
    [if carry_text] on the parent's text. *)
Lemma remove_duplicated_headings_unfold tg at_ tx tl ch :
  _remove_duplicated_headings (mkElement tg at_ tx tl ch) =
  mkElement tg at_ (carry_into_text (process_children ch).2 tx) tl
            (process_children ch).1.
Proof.
  cbn [_remove_duplicated_headings].
  match goal with
  | |- (let '(_, _) := ?f ch in _) = _ =>
      assert (forall els, f els = process_children els) as Heq
  end.
  { induction els as [|el later IH]; [reflexivity|].
    cbn [process_children]. rewrite <- IH. reflexivity. }
  rewrite Heq. destruct (process_children ch); reflexivity.
Qed.

(** The pass neither reads nor writes the tail of its argument, so setting
    the tail before the recursive call, as the source does, or after it, as
    the definition does, gives the same element. *)
Lemma remove_duplicated_headings_tail (carry_text : string) (el : Element) :
  _remove_duplicated_headings (carry_into_tail carry_text el) =
  carry_into_tail carry_text (_remove_duplicated_headings el).
Proof.
  destruct el as [tg at_ tx tl ch]. unfold carry_into_tail.
  destruct (str_truthy carry_text); [|reflexivity].
  cbn [tag attrib text tail subelements].
  rewrite !remove_duplicated_headings_unfold. reflexivity.
Qed.

Lemma remove_keeps_tag_attrib_tail (el : Element) :
  tag (_remove_duplicated_headings el) = tag el /\
  attrib (_remove_duplicated_headings el) = attrib el /\
  tail (_remove_duplicated_headings el) = tail el.
Proof.
  destruct el as [tg at_ tx tl ch].
  rewrite remove_duplicated_headings_unfold. repeat split.
Qed.

Lemma carry_into_tail_fields (carry_text : string) (el : Element) :
  tag (carry_into_tail carry_text el) = tag el /\
  attrib (carry_into_tail carry_text el) = attrib el /\
  text (carry_into_tail carry_text el) = text el /\
  subelements (carry_into_tail carry_text el) = subelements el /\
  or_empty (tail (carry_into_tail carry_text el)) = or_empty (tail el) +:+ carry_text.
Proof.
  unfold carry_into_tail. destruct (str_truthy carry_text) eqn:E.
  - repeat split.
  - apply str_truthy_false in E as ->. rewrite append_empty_r. repeat split.
Qed.

Lemma is_duplicate_container_fields (el el' : Element) :
  tag el' = tag el -> attrib el' = attrib el ->
  is_duplicate_container el' = is_duplicate_container el.
Proof. unfold is_duplicate_container. intros -> ->. reflexivity. Qed.

Lemma kept_is_not_duplicate (carry_text : string) (el : Element) :
  is_duplicate_container (carry_into_tail carry_text (_remove_duplicated_headings el)) =
  is_duplicate_container el.
Proof.
  destruct (carry_into_tail_fields carry_text (_remove_duplicated_headings el))
    as (Ht & Ha & _).
  destruct (remove_keeps_tag_attrib_tail el) as (Ht' & Ha' & _).
  apply is_duplicate_container_fields; congruence.
Qed.



(** Siblings in front of a point where no carry is pending are processed on
    their own. *)
Lemma process_children_app (before later : list Element) :
  (process_children later).2 = "" ->
  process_children (before ++ later) =
  ((process_children before).1 ++ (process_children later).1,
   (process_children before).2).
Proof.
  intros Hlater. induction before as [|el before IH].
  - cbn. destruct (process_children later); cbn in *. by subst.
  - cbn [app process_children]. rewrite IH.
    destruct (process_children before) as [kept carry]. cbn [fst snd].
    destruct (is_duplicate_container el); reflexivity.
Qed.

Lemma no_duplicate_below_unfold (el : Element) :
  no_duplicate_below el =
  forallb (fun c => negb (is_duplicate_container c) && no_duplicate_below c)
          (subelements el).
Proof. destruct el; reflexivity. Qed.


Lemma inner_text_unfold (el : Element) :
  inner_text el =
  or_empty (text el) +:+
  fold_right (fun c acc => inner_text c +:+ or_empty (tail c) +:+ acc) ""
             (subelements el).
Proof. destruct el; reflexivity. Qed.


Lemma carry_into_tail_inner_text carry_text el :
  inner_text (carry_into_tail carry_text el) = inner_text el.
Proof.
  destruct (carry_into_tail_fields carry_text el) as (_ & _ & Hx & Hs & _).
  rewrite !inner_text_unfold. congruence.
Qed.

Lemma carry_into_tail_no_duplicate carry_text el :
  no_duplicate_below (carry_into_tail carry_text el) = no_duplicate_below el.
Proof.
  destruct (carry_into_tail_fields carry_text el) as (_ & _ & _ & Hs & _).
  rewrite !no_duplicate_below_unfold. congruence.
Qed.

(** No duplicated container is left anywhere below the root. *)
Lemma remove_leaves_no_duplicate (el : Element) :
  no_duplicate_below (_remove_duplicated_headings el) = true.
Proof.
  induction el as [tg at_ tx tl ch IH] using Element_nested_ind.
  rewrite remove_duplicated_headings_unfold. cbn [no_duplicate_below].
  induction IH as [|c cs Hc _ IHcs]; [reflexivity|].
  cbn [process_children]. destruct (process_children cs) as [kept carry].
  destruct (is_duplicate_container c) eqn:Ec; [exact IHcs|].
  cbn [fst forallb] in *.
  rewrite kept_is_not_duplicate, Ec, carry_into_tail_no_duplicate, Hc.
  exact IHcs.
Qed.


(** The text of the result, in document order, is the text of the nodes that
    stay together with the own text of each removed container. *)
Lemma remove_inner_text (el : Element) :
  inner_text (_remove_duplicated_headings el) = kept_text el.
Proof.
  induction el as [tg at_ tx tl ch IH] using Element_nested_ind.
  rewrite remove_duplicated_headings_unfold. cbn [inner_text kept_text].
  assert ((process_children ch).2 +:+
          fold_right (fun c acc => inner_text c +:+ or_empty (tail c) +:+ acc) ""
                     (process_children ch).1 =
          fold_right (fun c acc =>
                        (if is_duplicate_container c then or_empty (text c)
                         else kept_text c +:+ or_empty (tail c)) +:+ acc) "" ch) as <-.
  { induction IH as [|c cs Hc _ IHcs]; [reflexivity|].
    cbn [process_children fold_right]. rewrite <- IHcs.
    destruct (process_children cs) as [kept carry]. cbn [fst snd].
    destruct (is_duplicate_container c); cbn [fst snd fold_right].
    - by rewrite append_assoc.
    - rewrite carry_into_tail_inner_text, Hc.
      destruct (carry_into_tail_fields carry (_remove_duplicated_headings c))
        as (_ & _ & _ & _ & ->).
      destruct (remove_keeps_tag_attrib_tail c) as (_ & _ & ->).
      by rewrite !append_assoc. }
  unfold carry_into_text. destruct (str_truthy (process_children ch).2) eqn:E.
  - cbn [or_empty]. by rewrite append_assoc.
  - apply str_truthy_false in E. rewrite E. reflexivity.
Qed.

(** On a tree without duplicated containers the loop keeps every child as it
    is and leaves no carry. *)
Lemma remove_without_duplicates (el : Element) :
  no_duplicate_below el = true -> _remove_duplicated_headings el = el.
Proof.
  induction el as [tg at_ tx tl ch IH] using Element_nested_ind.
  cbn [no_duplicate_below]. intros Hch.
  rewrite remove_duplicated_headings_unfold.
  assert (process_children ch = (ch, "")) as ->; [|reflexivity].
  induction IH as [|c cs Hc _ IHcs]; [reflexivity|].
  cbn [forallb] in Hch. apply andb_true_iff in Hch as [Hhead Hcs].
  apply andb_true_iff in Hhead as [Hnd Hbelow]. apply negb_true_iff in Hnd.
  cbn [process_children]. rewrite (IHcs Hcs), Hnd, (Hc Hbelow). reflexivity.
Qed.

(** C7.  The pass changes nothing in a tree that has no duplicated container
    below its root, and the result of the pass is always such a tree, so
    running the pass a second time changes nothing. *)
Theorem remove_duplicated_headings_idempotent (root : Element) :
  (no_duplicate_below root = true ->
   headings_post_processor_run root = root) /\
  no_duplicate_below (headings_post_processor_run root) = true /\
  headings_post_processor_run (headings_post_processor_run root) =
  headings_post_processor_run root.
Proof.
  unfold headings_post_processor_run. split; [apply remove_without_duplicates|].
  split; [apply remove_leaves_no_duplicate|].
  apply remove_without_duplicates, remove_leaves_no_duplicate.
Qed.





Lemma remove_duplicated_headings_idempotent_witness :
  let root := mkElement "body" ∅ (Some "t") None
                [mkElement "p" {["class" := "x"]} (Some "a") (Some "b") []] in
  no_duplicate_below root = true /\ headings_post_processor_run root = root.
Proof.
  intros root. split; [reflexivity|].
  exact (proj1 (remove_duplicated_headings_idempotent root) eq_refl).
Defined.

(** ** Option layering *)

(** Lookup in the options of a block whose local and global options are
    mappings: the local options first, then the global ones, and last the
    heading level of the instruction when it is not zero. *)
Lemma getitem_build_options (local_options global_options : list (string * py_value))
    (heading_level : Z) (key : string) :
  getitem (build_options (PyDict local_options) (PyDict global_options) heading_level)
          key =
  match dict_lookup key local_options with
  | Some v => Returned v
  | None =>
      match dict_lookup key global_options with
      | Some v => Returned v
      | None =>
          if negb (heading_level =? 0) && String.eqb "heading_level" key
          then Returned (PyInt heading_level)
          else Raised (KeyError key)
      end
  end.
Proof.
  unfold build_options.
  destruct (heading_level =? 0); cbn [getitem dict_lookup negb andb];
    destruct (dict_lookup key local_options); try reflexivity;
    destruct (dict_lookup key global_options); try reflexivity.
  destruct (String.eqb "heading_level" key); reflexivity.
Qed.

(** C1 (as amended).  For all local and global option mappings and every
    heading level above zero, the lookup of [heading_level] in the options
    gives the local value when the local options have the key, else the global
    value when the global options have it, and the heading level of the
    instruction only when neither has it: the heading level is a default. *)
Theorem heading_level_is_default
    (local_options global_options : list (string * py_value)) (heading_level : Z) :
  heading_level > 0 ->
  getitem (build_options (PyDict local_options) (PyDict global_options) heading_level)
          "heading_level" =
  Returned
    (match dict_lookup "heading_level" local_options with
     | Some v => v
     | None =>
         match dict_lookup "heading_level" global_options with
         | Some v => v
         | None => PyInt heading_level
         end
     end).
Proof.
  intros Hpos. rewrite getitem_build_options.
  assert ((heading_level =? 0) = false) as -> by lia.
  destruct (dict_lookup "heading_level" local_options); [reflexivity|].
  destruct (dict_lookup "heading_level" global_options); reflexivity.
Qed.

Lemma heading_level_is_default_witness :
  2 > 0 /\
  getitem (build_options (PyDict [("x", PyInt 1)])
                         (PyDict [("x", PyInt 2); ("y", PyInt 3)]) 2)
          "heading_level" = Returned (PyInt 2).
Proof.
  split; [lia|].
  apply (heading_level_is_default [("x", PyInt 1)] [("x", PyInt 2); ("y", PyInt 3)] 2).
  lia.
Defined.

(** C1, counterexample.  The claim as first stated (the heading level of the
    instruction wins over configured values) fails when the local options set
    [heading_level]: with local [{heading_level: 5}] and heading level 2 the
    lookup gives 5. *)
Lemma heading_level_override_counterexample :
  ~ (forall (local_options global_options : list (string * py_value))
            (heading_level : Z),
       heading_level > 0 ->
       getitem (build_options (PyDict local_options) (PyDict global_options)
                              heading_level) "heading_level" =
       Returned (PyInt heading_level)).
Proof.
  intros H. assert (2 > 0) as Hpos by lia.
  specialize (H [("heading_level", PyInt 5)] [] 2 Hpos).
  cbn in H. discriminate H.
Qed.

(** ** Configuration text *)

Section Configuration.
Variable CollectorItem : Type.
Variable safe_load : string -> outcome py_value.
Variable handlers : Handlers CollectorItem.

Lemma process_block_loader_raises (yaml_block : string) (e : exn)
    (identifier : string) (heading_level : Z) (s : State) :
  safe_load yaml_block = Raised e ->
  _process_block CollectorItem safe_load handlers identifier yaml_block heading_level s =
  (Raised e, s).
Proof.
  intros H. unfold _process_block, load_config, mbind, M_bind, lift. cbn.
  rewrite H. reflexivity.
Qed.

(** C2 (as amended).  For every configuration text, when the loader returns,
    the configuration is the loaded value, or the empty mapping when that value
    is falsy (as for an empty text), and parsing does not fail; when the
    loader raises, as on malformed text, the error leaves [_process_block]
    with the state unchanged. *)
Theorem load_config_recovers_falsy_only (yaml_block : string) :
  (forall loaded, safe_load yaml_block = Returned loaded ->
     load_config safe_load yaml_block =
     Returned (if truthy loaded then loaded else PyDict [])) /\
  (forall loaded, safe_load yaml_block = Returned loaded -> truthy loaded = false ->
     load_config safe_load yaml_block = Returned (PyDict [])) /\
  (forall e, safe_load yaml_block = Raised e ->
     load_config safe_load yaml_block = Raised e /\
     forall identifier heading_level s,
       _process_block CollectorItem safe_load handlers identifier yaml_block
                      heading_level s = (Raised e, s)).
Proof.
  unfold load_config. repeat split.
  - intros loaded Hl. rewrite Hl. reflexivity.
  - intros loaded Hl Hf. rewrite Hl. cbn. rewrite Hf. reflexivity.
  - rewrite H. reflexivity.
  - intros. by apply process_block_loader_raises.
Qed.

(** C9.  When the loader returns a falsy value for the configuration text,
    the configuration is the empty mapping: the handler name is resolved from
    the empty mapping, the local options read from it are the empty mapping,
    and [_process_block] runs as it does on a text that loads as an empty
    mapping.  No configuration is ever [None]. *)
Theorem falsy_config_is_empty_mapping (yaml_block : string) (loaded : py_value) :
  safe_load yaml_block = Returned loaded ->
  truthy loaded = false ->
  load_config safe_load yaml_block = Returned (PyDict []) /\
  resolve_handler_name CollectorItem safe_load handlers yaml_block =
    get_handler_name handlers (PyDict []) /\
  py_get (PyDict []) "options" (PyDict []) = Returned (PyDict []) /\
  (forall identifier heading_level s,
     _process_block CollectorItem safe_load handlers identifier yaml_block
                    heading_level s =
     _process_block CollectorItem (fun _ => Returned (PyDict [])) handlers identifier
                    yaml_block heading_level s) /\
  (forall text config,
     load_config safe_load text = Returned config ->
     config <> PyNone /\ (config = PyDict [] \/ truthy config = true)).
Proof.
  intros Hload Hfalsy.
  assert (load_config safe_load yaml_block = Returned (PyDict [])) as Hconfig.
  { unfold load_config. rewrite Hload. cbn. rewrite Hfalsy. reflexivity. }
  split; [exact Hconfig|]. split.
  { unfold resolve_handler_name. rewrite Hconfig. reflexivity. }
  split; [reflexivity|]. split.
  { intros identifier heading_level s.
    unfold _process_block, mbind, M_bind, lift. rewrite Hconfig. reflexivity. }
  intros text config. unfold load_config.
  destruct (safe_load text) as [v|e]; cbn; [|discriminate].
  destruct (truthy v) eqn:E; intros [= <-].
  - split; [|by right]. intros ->. discriminate E.
  - split; [discriminate|by left].
Qed.

End Configuration.

Lemma load_config_recovers_falsy_only_witness :
  sample_safe_load "" = Returned PyNone /\
  load_config sample_safe_load "" = Returned (PyDict []).
Proof.
  split; [reflexivity|].
  exact (proj1 (proj2 (load_config_recovers_falsy_only string sample_safe_load
                         sample_handlers "")) PyNone eq_refl eq_refl).
Defined.

Lemma falsy_config_is_empty_mapping_witness :
  sample_safe_load "" = Returned PyNone /\
  truthy PyNone = false /\
  resolve_handler_name string sample_safe_load sample_handlers "" = Returned "python".
Proof.
  split; [reflexivity|]. split; [reflexivity|].
  exact (proj1 (proj2 (falsy_config_is_empty_mapping string sample_safe_load
                         sample_handlers "" PyNone eq_refl eq_refl))).
Defined.

(** C2, counterexample.  The claim as first stated (parsing never fails)
    does not hold for a loader that raises on a malformed text: the error of
    the loader on ["["] comes out of [load_config] and of [_process_block]. *)
Lemma load_config_malformed_counterexample :
  ~ (forall yaml_block : string,
       exists config, load_config sample_safe_load yaml_block = Returned config) /\
  (_process_block string sample_safe_load sample_handlers "a.b" "[" 0 initial_state).1 =
    Raised (YAMLError "expected the node content, but found '<stream end>'").
Proof.
  split; [|reflexivity].
  intros H. destruct (H "[") as [config Hc]. discriminate Hc.
Qed.

(** ** The state monad *)

Lemma bind_returned {A B : Type} (m : M A) (k : A -> M B) (s s' : State) (b : B) :
  (m ≫= k) s = (Returned b, s') ->
  exists a s1, m s = (Returned a, s1) /\ k a s1 = (Returned b, s').
Proof.
  unfold mbind, M_bind. destruct (m s) as [[a|e] s1]; [|discriminate].
  intros H. exists a, s1. split; [reflexivity|exact H].
Qed.

Lemma lift_returned {A : Type} (r : outcome A) (s s' : State) (a : A) :
  lift r s = (Returned a, s') -> r = Returned a /\ s' = s.
Proof. unfold lift. intros [= -> ->]. split; reflexivity. Qed.

Lemma ret_returned {A : Type} (a b : A) (s s' : State) :
  (mret a : M A) s = (Returned b, s') -> b = a /\ s' = s.
Proof. unfold mret, M_ret. intros [= -> ->]. split; reflexivity. Qed.

(** ** The instruction matcher *)

Lemma match_block_example (others : list string) :
  match_block 4 (example_block :: others) =
  Returned (mkMatched (Some ("prefix" +:+ newline)) (Some (mkMatch 7 14 0 "a.b"))
                      (newline +:+ "opt: 1") "suffix" others).
Proof. destruct others; reflexivity. Qed.

Section Matcher.
Variable CollectorItem : Type.
Variable safe_load : string -> outcome py_value.
Variable handlers : Handlers CollectorItem.
Variable inventory_register :
  InventoryItem -> gmap string InventoryItem -> gmap string InventoryItem.
Variable placeholder : nat -> string.
Variable parseBlocks : Element -> list string -> Element.
Variable current_page : option string.

(** C5 (as amended).  On the block of the example (nothing in its first line
    matches), with a tab length of 4, [run] gives the generic parser the text
    before the match with its line break, that is ["prefix\n"]; it finds the
    identifier [a.b] with no heading marker; the configuration text is the
    empty end of the instruction line followed by the indented line without
    its four blanks, that is ["\nopt: 1"]; and [suffix] is put back as the
    first pending block.  When [run] returns, the parent has the container of
    the instruction as its new last child. *)
Theorem run_example_block (others : list string) (parent parent' : Element)
    (blocks' : list string) (s s' : State) :
  run CollectorItem safe_load handlers inventory_register placeholder parseBlocks
      4 current_page parent (example_block :: others) s =
    (Returned (parent', blocks'), s') ->
  regex_search "prefix" = None /\
  match_block 4 (example_block :: others) =
    Returned (mkMatched (Some ("prefix" +:+ newline)) (Some (mkMatch 7 14 0 "a.b"))
                        (newline +:+ "opt: 1") "suffix" others) /\
  blocks' = "suffix" :: others /\
  exists html handler data s1 el,
    _process_block CollectorItem safe_load handlers "a.b" (newline +:+ "opt: 1") 0 s =
      (Returned (html, handler, data), s1) /\
    parent' = append_child (parseBlocks parent ["prefix" +:+ newline]) el /\
    is_duplicate_container el = true /\
    subelements el = get_headings handler data.
Proof.
  intros Hrun. split; [reflexivity|].
  split; [apply match_block_example|].
  unfold run in Hrun.
  apply bind_returned in Hrun as (matched & s0 & Hmatch & Hrun).
  apply lift_returned in Hmatch as [Hmatch ->].
  rewrite match_block_example in Hmatch. injection Hmatch as <-.
  cbn [reparsed instruction yaml_block the_rest pending match_name_group
       match_hashes Z.of_nat] in Hrun.
  apply bind_returned in Hrun as (parent1 & s3 & Hparent & Hrun).
  apply ret_returned in Hrun as [[= -> ->] ->].
  split; [reflexivity|].
  apply bind_returned in Hparent as ([[html handler] data] & s1 & Hblock & Hparent).
  apply bind_returned in Hparent as (stored & s2 & Hstore & Hparent).
  apply bind_returned in Hparent as ([] & s4 & Hreg & Hparent).
  apply ret_returned in Hparent as [-> ->].
  eexists html, handler, data, s1, _. repeat split. exact Hblock.
Qed.

End Matcher.

Lemma run_example_block_witness :
  exists parent' s',
    run string sample_safe_load sample_handlers register_first_wins
        sample_placeholder sample_parseBlocks 4 (Some "page.html")
        (mkElement "body" ∅ None None []) [example_block] initial_state =
      (Returned (parent', ["suffix"]), s') /\
    map tag (subelements parent') = ["p"; "div"].
Proof.
  destruct (run string sample_safe_load sample_handlers register_first_wins
                sample_placeholder sample_parseBlocks 4 (Some "page.html")
                (mkElement "body" ∅ None None []) [example_block] initial_state)
    as [[[parent' blocks']|e] s'] eqn:Hrun.
  - pose proof (run_example_block string sample_safe_load sample_handlers
                  register_first_wins sample_placeholder sample_parseBlocks
                  (Some "page.html") [] _ parent' blocks' initial_state s' Hrun)
      as (_ & _ & -> & html & handler & data & s1 & el & _ & -> & Hdup & _).
    exists (append_child
              (sample_parseBlocks (mkElement "body" ∅ None None [])
                                  ["prefix" +:+ newline]) el), s'.
    split; [reflexivity|].
    cbn. unfold is_duplicate_container in Hdup.
    apply andb_true_iff in Hdup as [Htag _]. apply String.eqb_eq in Htag.
    rewrite Htag. reflexivity.
  - vm_compute in Hrun. discriminate Hrun.
Defined.

(** C5, counterexample.  The claim as first stated names the block handed
    back as ["prefix"] and the configuration text as ["opt: 1"]; the block
    handed back keeps its line break and the configuration text starts with
    the line break that ends the instruction line. *)
Lemma match_block_exact_strings_counterexample :
  let matched := mkMatched (Some ("prefix" +:+ newline)) (Some (mkMatch 7 14 0 "a.b"))
                           (newline +:+ "opt: 1") "suffix" [] in
  match_block 4 [example_block] = Returned matched /\
  reparsed matched <> Some "prefix" /\
  yaml_block matched <> "opt: 1".
Proof.
  intros matched. split; [reflexivity|]. split; vm_compute; discriminate.
Qed.

(** ** The anchor registrar *)

Lemma decide_elem_of_cons_ne {A : Type} (x a : string) (rest : list string)
    (yes no : A) :
  x <> a ->
  (if decide (x ∈ rest) then yes else no) =
  (if decide (x ∈ a :: rest) then yes else no).
Proof.
  intros Hne.
  destruct (decide (x ∈ rest)) as [Hin|Hout];
    destruct (decide (x ∈ a :: rest)) as [Hin'|Hout']; try reflexivity; exfalso.
  - apply Hout', elem_of_cons. by right.
  - apply elem_of_cons in Hin' as [Heq|Hin']; [exact (Hne Heq)|exact (Hout Hin')].
Qed.

Section Registrar.
Variable CollectorItem : Type.
Variable inventory_register :
  InventoryItem -> gmap string InventoryItem -> gmap string InventoryItem.

(** What the claims need of [Inventory.register]: under a name that has no
    entry, the entry is stored. *)
Hypothesis register_absent : forall item inv,
  inv !! item_name item = None ->
  inventory_register item inv = <[item_name item := item]> inv.

(** The loop over the other anchors: an anchor that has an entry keeps it,
    an anchor without one gets the entry of priority 2, and no other name is
    touched. *)
Lemma register_other_anchors_inventory (handler : BaseHandler CollectorItem)
    (role uri : string) (anchors : list string) :
  forall s : State,
  exists s',
    register_other_anchors CollectorItem inventory_register handler role uri anchors s =
      (Returned (), s') /\
    forall anchor : string,
      inventory s' !! anchor =
      match inventory s !! anchor with
      | Some item => Some item
      | None =>
          if decide (anchor ∈ anchors)
          then Some (mkInventoryItem anchor (domain handler) role 2 uri)
          else None
      end.
Proof.
  induction anchors as [|a rest IH]; intros s.
  - exists s. split; [reflexivity|]. intros anchor.
    destruct (inventory s !! anchor); [reflexivity|].
    rewrite decide_False; [reflexivity|]. apply not_elem_of_nil.
  - cbn [register_other_anchors]. unfold mbind, M_bind.
    destruct (inventory s !! a) as [item|] eqn:Ha.
    + destruct (IH s) as (s' & Hrun & Hinv). exists s'. split; [exact Hrun|].
      intros anchor. rewrite Hinv.
      destruct (inventory s !! anchor) eqn:E; [reflexivity|].
      apply decide_elem_of_cons_ne. congruence.
    + unfold register_item.
      destruct (IH (set_inventory
                      (inventory_register
                         (mkInventoryItem a (domain handler) role 2 uri)
                         (inventory s)) s)) as (s' & Hrun & Hinv).
      exists s'. split; [exact Hrun|].
      intros anchor. rewrite Hinv. cbn [set_inventory inventory].
      rewrite register_absent by exact Ha. cbn [item_name].
      destruct (decide (a = anchor)) as [<-|Hne].
      * rewrite lookup_insert_eq, Ha.
        rewrite decide_True by set_solver. reflexivity.
      * rewrite lookup_insert_ne by exact Hne.
        destruct (inventory s !! anchor); [reflexivity|].
        apply decide_elem_of_cons_ne. congruence.
Qed.

(** One heading with an id and a role marker, when the id is collected
    again with the fallback configuration: the inventory after the heading is
    the inventory as it stands after the registration of the id with
    priority 1, with in addition, for each anchor [get_anchors] returns that
    has no entry there, an entry of priority 2 with the role and domain of the
    heading and the uri [page#id].  An anchor that already has an entry keeps
    it. *)
Lemma register_heading_other_anchors (page : string)
    (handler : BaseHandler CollectorItem) (heading : Element)
    (rendered_anchor role : string) (data_object : CollectorItem) (s : State) :
  attrib heading !! "id" = Some rendered_anchor ->
  attrib heading !! "data-role" = Some role ->
  collect handler rendered_anchor (Plain (fallback_config handler)) =
    Returned data_object ->
  let uri := page +:+ "#" +:+ rendered_anchor in
  let primary :=
    inventory_register (mkInventoryItem rendered_anchor (domain handler) role 1 uri)
                       (inventory s) in
  exists s',
    register_heading CollectorItem inventory_register page handler heading s =
      (Returned (), s') /\
    forall anchor : string,
      inventory s' !! anchor =
      match primary !! anchor with
      | Some item => Some item
      | None =>
          if decide (anchor ∈ get_anchors handler data_object)
          then Some (mkInventoryItem anchor (domain handler) role 2 uri)
          else None
      end.
Proof.
  intros Hid Hrole Hcollect uri primary.
  unfold register_heading. rewrite Hid, Hrole, Hcollect.
  unfold mbind, M_bind, register_anchor, register_item.
  match goal with
  | |- context [register_other_anchors _ _ _ _ _ _ ?st] =>
      destruct (register_other_anchors_inventory handler role uri
                  (get_anchors handler data_object) st) as (s' & Hrun & Hinv)
  end.
  exists s'. split; [exact Hrun|]. intros anchor. rewrite Hinv. reflexivity.
Qed.

End Registrar.

Lemma register_first_wins_absent (item : InventoryItem)
    (inv : gmap string InventoryItem) :
  inv !! item_name item = None ->
  register_first_wins item inv = <[item_name item := item]> inv.
Proof. unfold register_first_wins. intros ->. reflexivity. Qed.

(** ** The environment hook *)

Lemma note_name_elem (seen : list string) (n m : string) :
  m ∈ note_name seen n <-> m ∈ seen \/ m = n.
Proof.
  unfold note_name. destruct (decide (n ∈ seen)) as [Hin|Hout].
  - split; [by left|]. intros [H| ->]; assumption.
  - rewrite elem_of_app, list_elem_of_singleton. reflexivity.
Qed.

Lemma note_name_NoDup (seen : list string) (n : string) :
  NoDup seen -> NoDup (note_name seen n).
Proof.
  unfold note_name. intros Hnd. destruct (decide (n ∈ seen)) as [Hin|Hout];
    [exact Hnd|].
  apply NoDup_app. split; [exact Hnd|]. split.
  - intros x Hx Hx'. apply list_elem_of_singleton in Hx'. congruence.
  - apply NoDup_singleton.
Qed.

Lemma fold_note_name_elem (names seen : list string) (m : string) :
  m ∈ fold_left note_name names seen <-> m ∈ seen \/ m ∈ names.
Proof.
  revert seen. induction names as [|n names IH]; intros seen; cbn [fold_left].
  - split; [by left|]. intros [H|H]; [exact H|]. by apply not_elem_of_nil in H.
  - rewrite IH, note_name_elem, elem_of_cons. tauto.
Qed.

Lemma fold_note_name_NoDup (names seen : list string) :
  NoDup seen -> NoDup (fold_left note_name names seen).
Proof.
  revert seen. induction names as [|n names IH]; intros seen Hnd; [exact Hnd|].
  cbn [fold_left]. apply IH, note_name_NoDup, Hnd.
Qed.

Lemma first_occurrences_snoc (names : list string) (n : string) :
  first_occurrences (names ++ [n]) =
  first_occurrences names ++ (if decide (n ∈ names) then [] else [n]).
Proof.
  unfold first_occurrences. rewrite fold_left_app. cbn [fold_left].
  unfold note_name at 1.
  destruct (decide (n ∈ fold_left note_name names [])) as [Hin|Hout];
    destruct (decide (n ∈ names)) as [Hin'|Hout']; try reflexivity.
  - by rewrite app_nil_r.
  - exfalso. apply fold_note_name_elem in Hin as [Hin|Hin]; [|done].
    by apply not_elem_of_nil in Hin.
  - exfalso. apply Hout, fold_note_name_elem. by right.
Qed.

Section EnvironmentHook.
Variable CollectorItem : Type.
Variable safe_load : string -> outcome py_value.
Variable handlers : Handlers CollectorItem.

(** One call: when it returns, the block resolved to a handler name, and the
    hook was called, once and for that name, exactly when the name had not
    been seen. *)
Lemma process_block_env_updates (identifier yaml_block : string) (heading_level : Z)
    (s s' : State) (result : string * BaseHandler CollectorItem * CollectorItem) :
  envs_recorded s ->
  _process_block CollectorItem safe_load handlers identifier yaml_block heading_level s =
    (Returned result, s') ->
  exists n,
    resolve_handler_name CollectorItem safe_load handlers yaml_block = Returned n /\
    env_updates s' = note_name (env_updates s) n /\
    envs_recorded s'.
Proof.
  intros Hrec Hrun. unfold _process_block in Hrun.
  apply bind_returned in Hrun as (config & s0 & Hconfig & Hrun).
  apply lift_returned in Hconfig as [Hconfig ->].
  apply bind_returned in Hrun as (n & s0 & Hname & Hrun).
  apply lift_returned in Hname as [Hname ->].
  apply bind_returned in Hrun as (handler_config & s0 & Hhc & Hrun).
  apply lift_returned in Hhc as [Hhc ->].
  apply bind_returned in Hrun as (handler & s0 & Hh & Hrun).
  apply lift_returned in Hh as [Hh ->].
  apply bind_returned in Hrun as (global_options & s0 & Hg & Hrun).
  apply lift_returned in Hg as [Hg ->].
  apply bind_returned in Hrun as (local_options & s0 & Hl & Hrun).
  apply lift_returned in Hl as [Hl ->].
  apply bind_returned in Hrun as (data & s0 & Hdata & Hrun).
  apply lift_returned in Hdata as [Hdata ->].
  apply bind_returned in Hrun as ([] & s1 & Henv & Hrun).
  apply bind_returned in Hrun as (rendered & s2 & Hrender & Hrun).
  apply lift_returned in Hrender as [Hrender ->].
  apply ret_returned in Hrun as [_ ->].
  exists n. split.
  { unfold resolve_handler_name. rewrite Hconfig. exact Hname. }
  unfold update_env_once in Henv. unfold note_name.
  destruct (decide (n ∈ _updated_envs s)) as [Hin|Hout].
  - injection Henv as <-. rewrite decide_True by (by apply Hrec).
    split; [reflexivity|exact Hrec].
  - apply bind_returned in Henv as ([] & s3 & Hcall & Hadd).
    unfold call_update_env in Hcall. injection Hcall as _ <-.
    unfold add_updated_env in Hadd. injection Hadd as <-.
    cbn [env_updates _updated_envs].
    rewrite decide_False by (intros Hin; apply Hout, Hrec, Hin).
    split; [reflexivity|].
    intros m. cbn [env_updates _updated_envs].
    rewrite elem_of_union, elem_of_singleton, elem_of_app, list_elem_of_singleton.
    rewrite (Hrec m). tauto.
Qed.

Lemma process_blocks_app (before after : list (string * string * Z)) (s s' : State) :
  process_blocks CollectorItem safe_load handlers (before ++ after) s =
    (Returned (), s') ->
  exists s1,
    process_blocks CollectorItem safe_load handlers before s = (Returned (), s1) /\
    process_blocks CollectorItem safe_load handlers after s1 = (Returned (), s').
Proof.
  revert s. induction before as [|[[identifier yaml] hl] before IH]; intros s Hrun.
  - exists s. split; [reflexivity|exact Hrun].
  - cbn [app process_blocks] in Hrun.
    apply bind_returned in Hrun as (r & s0 & Hblock & Hrun).
    destruct (IH s0 Hrun) as (s1 & Hbefore & Hafter).
    exists s1. split; [|exact Hafter].
    cbn [process_blocks]. unfold mbind, M_bind. rewrite Hblock. exact Hbefore.
Qed.

(** A sequence of calls that all return: the blocks resolve to handler
    names, and the hook calls continue the ones made before with the first
    occurrence of each new name. *)
Lemma process_blocks_env_updates (instructions : list (string * string * Z)) :
  forall s s' : State,
    envs_recorded s ->
    process_blocks CollectorItem safe_load handlers instructions s =
      (Returned (), s') ->
    exists names,
      Forall2 (fun instr n =>
                 resolve_handler_name CollectorItem safe_load handlers instr.1.2 =
                 Returned n) instructions names /\
      env_updates s' = fold_left note_name names (env_updates s) /\
      envs_recorded s'.
Proof.
  induction instructions as [|[[identifier yaml] hl] rest IH]; intros s s' Hrec Hrun.
  - apply ret_returned in Hrun as [_ ->]. exists []. split; [constructor|].
    split; [reflexivity|exact Hrec].
  - cbn [process_blocks] in Hrun.
    apply bind_returned in Hrun as (r & s0 & Hblock & Hrun).
    destruct (process_block_env_updates _ _ _ _ _ _ Hrec Hblock)
      as (n & Hn & Henv & Hrec0).
    destruct (IH s0 s' Hrec0 Hrun) as (names & Hnames & Henv' & Hrec').
    exists (n :: names). split; [constructor; assumption|].
    split; [|exact Hrec']. cbn [fold_left]. rewrite Henv', Henv. reflexivity.
Qed.

End EnvironmentHook.

(** The registrar and the stash leave [self._updated_envs] and the record of
    hook calls alone, whether they return or raise. *)
Section RunKeepsEnvironments.
Variable CollectorItem : Type.
Variable safe_load : string -> outcome py_value.
Variable handlers : Handlers CollectorItem.
Variable inventory_register :
  InventoryItem -> gmap string InventoryItem -> gmap string InventoryItem.
Variable placeholder : nat -> string.
Variable parseBlocks : Element -> list string -> Element.
Variable tab_length : nat.
Variable current_page : option string.

Lemma same_envs_bind {A B : Type} (m : M A) (k : A -> M B) (s : State) :
  same_envs s (m s).2 ->
  (forall a s1, same_envs s1 (k a s1).2) ->
  same_envs s ((m ≫= k) s).2.
Proof.
  unfold mbind, M_bind. intros Hm Hk. destruct (m s) as [[a|e] s1]; cbn in *.
  - destruct Hm as [Hm1 Hm2]. destruct (Hk a s1) as [Hk1 Hk2].
    split; congruence.
  - exact Hm.
Qed.

Lemma register_other_anchors_same_envs (handler : BaseHandler CollectorItem)
    (role uri : string) (anchors : list string) (s : State) :
  same_envs s (register_other_anchors CollectorItem inventory_register handler role
                                      uri anchors s).2.
Proof.
  revert s. induction anchors as [|a rest IH]; intros s; [by split|].
  cbn [register_other_anchors]. apply same_envs_bind; [|intros _ s1; apply IH].
  destruct (inventory s !! a); by split.
Qed.

Lemma register_heading_same_envs (page : string) (handler : BaseHandler CollectorItem)
    (heading : Element) (s : State) :
  same_envs s (register_heading CollectorItem inventory_register page handler
                                heading s).2.
Proof.
  unfold register_heading.
  destruct (attrib heading !! "id") as [rendered_anchor|]; [|by split].
  apply same_envs_bind; [by split|]. intros _ st1.
  destruct (attrib heading !! "data-role") as [role|]; [|by split].
  apply same_envs_bind; [by split|]. intros _ st2.
  destruct (collect handler _ _) as [data|[]]; try by split.
  apply register_other_anchors_same_envs.
Qed.

Lemma register_headings_same_envs (page : string) (handler : BaseHandler CollectorItem)
    (headings : list Element) (s : State) :
  same_envs s (register_headings CollectorItem inventory_register page handler
                                 headings s).2.
Proof.
  revert s. induction headings as [|h rest IH]; intros s; [by split|].
  cbn [register_headings]. apply same_envs_bind; [|intros _ s1; apply IH].
  apply register_heading_same_envs.
Qed.

(** X24.  One call of [run] that returns, in a state where the names in
    [self._updated_envs] are the names the hook was called for: the pending
    blocks gave a match result; when it has an instruction, its configuration
    text resolved to a handler name, and the hook was called once, for this
    name, if the name was not in [self._updated_envs], and not at all
    otherwise; without an instruction the hook was not called.  Storing the
    markup and registering the headings did not touch [self._updated_envs]:
    its names are still the names the hook was called for. *)
Lemma run_env_updates (parent : Element) (blocks : list string) (s s' : State)
    (result : Element * list string) :
  envs_recorded s ->
  run CollectorItem safe_load handlers inventory_register placeholder parseBlocks
      tab_length current_page parent blocks s = (Returned result, s') ->
  envs_recorded s' /\
  exists matched,
    match_block tab_length blocks = Returned matched /\
    match instruction matched with
    | Some m =>
        exists n,
          resolve_handler_name CollectorItem safe_load handlers (yaml_block matched) =
            Returned n /\
          env_updates s' =
            env_updates s ++ (if decide (n ∈ _updated_envs s) then [] else [n]) /\
          _updated_envs s' = {[n]} ∪ _updated_envs s
    | None => env_updates s' = env_updates s /\ _updated_envs s' = _updated_envs s
    end.
Proof.
  intros Hrec Hrun. unfold run in Hrun.
  apply bind_returned in Hrun as (matched & s0 & Hmatch & Hrun).
  apply lift_returned in Hmatch as [Hmatch ->].
  apply bind_returned in Hrun as (parent1 & s3 & Hparent & Hrun).
  apply ret_returned in Hrun as [_ ->].
  destruct (instruction matched) as [m|] eqn:Hinstr.
  - apply bind_returned in Hparent as ([[html handler] data] & s1 & Hblock & Hparent).
    apply bind_returned in Hparent as (stored & s2 & Hstore & Hparent).
    apply bind_returned in Hparent as ([] & s4 & Hreg & Hparent).
    apply ret_returned in Hparent as [_ ->].
    destruct (process_block_env_updates _ _ _ _ _ _ _ _ _ Hrec Hblock)
      as (n & Hn & Henv & Hrec1).
    unfold stash_store in Hstore. injection Hstore as _ <-.
    assert (same_envs
              (mkState (_updated_envs s1) (inventory s1) (registered_anchors s1)
                       (html_stash s1 ++ [html]) (env_updates s1)) s4)
      as [Hset Htrace].
    { destruct current_page as [page|].
      - pose proof (register_headings_same_envs page handler
                      (get_headings handler data)
                      (mkState (_updated_envs s1) (inventory s1)
                               (registered_anchors s1) (html_stash s1 ++ [html])
                               (env_updates s1))) as Hsame.
        rewrite Hreg in Hsame. exact Hsame.
      - apply ret_returned in Hreg as [_ ->]. by split. }
    cbn [_updated_envs env_updates] in Hset, Htrace.
    assert (envs_recorded s4) as Hrec4.
    { intros x. rewrite Hset, Htrace. apply Hrec1. }
    split; [exact Hrec4|].
    exists matched. split; [exact Hmatch|]. rewrite Hinstr.
    exists n. split; [exact Hn|].
    assert (env_updates s4 =
            env_updates s ++ (if decide (n ∈ _updated_envs s) then [] else [n]))
      as Hupdates.
    { rewrite Htrace, Henv. unfold note_name.
      destruct (decide (n ∈ env_updates s)) as [Hin|Hout];
        destruct (decide (n ∈ _updated_envs s)) as [Hin'|Hout'];
        try reflexivity.
      - by rewrite app_nil_r.
      - exfalso. by apply Hout', Hrec.
      - exfalso. by apply Hout, Hrec. }
    split; [exact Hupdates|].
    apply set_eq. intros x. rewrite (Hrec4 x), Hupdates.
    rewrite elem_of_union, elem_of_singleton, elem_of_app, <- (Hrec x).
    destruct (decide (n ∈ _updated_envs s)) as [Hin|Hout].
    + split; [intros [H|H]; [by right|by apply not_elem_of_nil in H]|].
      intros [->|H]; by left.
    + rewrite list_elem_of_singleton. tauto.
  - apply ret_returned in Hparent as [_ ->]. split; [exact Hrec|].
    exists matched. split; [exact Hmatch|]. rewrite Hinstr. by split.
Qed.

End RunKeepsEnvironments.

(** C6.  In a session that starts with no environment updated, when every
    call of [_process_block] of a sequence returns, each block resolved to a
    handler name and the hook [_update_env] was called exactly once for each
    of these names and for no other, in the order in which the names first
    occur; the call for a name is made by the first block that resolves to it
    and by no later block. *)
Theorem update_env_once_per_handler_name (CollectorItem : Type)
    (safe_load : string -> outcome py_value) (handlers : Handlers CollectorItem)
    (instructions : list (string * string * Z)) (s s' : State) :
  _updated_envs s = ∅ ->
  env_updates s = [] ->
  process_blocks CollectorItem safe_load handlers instructions s = (Returned (), s') ->
  exists names,
    Forall2 (fun instr n =>
               resolve_handler_name CollectorItem safe_load handlers instr.1.2 =
               Returned n) instructions names /\
    env_updates s' = first_occurrences names /\
    NoDup (env_updates s') /\
    (forall n, n ∈ env_updates s' <-> n ∈ names) /\
    (forall before instr after,
       instructions = before ++ instr :: after ->
       exists s1 s2 result n,
         process_blocks CollectorItem safe_load handlers before s = (Returned (), s1) /\
         _process_block CollectorItem safe_load handlers instr.1.1 instr.1.2 instr.2 s1 =
           (Returned result, s2) /\
         names !! length before = Some n /\
         env_updates s2 =
           env_updates s1 ++
           (if decide (n ∈ take (length before) names) then [] else [n])).
Proof.
  intros Hset Htrace Hrun.
  assert (envs_recorded s) as Hrec.
  { intros n. rewrite Hset, Htrace. split; intros H.
    - by apply not_elem_of_empty in H.
    - by apply not_elem_of_nil in H. }
  destruct (process_blocks_env_updates _ _ _ _ _ _ Hrec Hrun)
    as (names & Hnames & Henv & _).
  rewrite Htrace in Henv. fold (first_occurrences names) in Henv.
  exists names. split; [exact Hnames|]. split; [exact Henv|]. split.
  { rewrite Henv. apply fold_note_name_NoDup, NoDup_nil_2. }
  split.
  { intros n. rewrite Henv. unfold first_occurrences.
    rewrite fold_note_name_elem. split; [|by right].
    intros [H|H]; [by apply not_elem_of_nil in H|exact H]. }
  intros before [[identifier yaml] hl] after ->.
  destruct (process_blocks_app _ _ _ _ _ _ _ Hrun) as (s1 & Hbefore & Hafter).
  cbn [process_blocks] in Hafter.
  apply bind_returned in Hafter as (result & s2 & Hblock & _).
  destruct (process_blocks_env_updates _ _ _ _ _ _ Hrec Hbefore)
    as (names1 & Hnames1 & Henv1 & Hrec1).
  destruct (process_block_env_updates _ _ _ _ _ _ _ _ _ Hrec1 Hblock)
    as (n & Hn & Henv2 & _).
  rewrite Htrace in Henv1. fold (first_occurrences names1) in Henv1.
  apply Forall2_app_inv_l in Hnames as (names1' & rest & H1 & H2 & ->).
  apply Forall2_cons_inv_l in H2 as (n' & rest' & Hn' & _ & ->).
  cbn [fst snd] in Hn'. rewrite Hn in Hn'. injection Hn' as <-.
  assert (names1' = names1) as ->.
  { clear -H1 Hnames1. revert names1 names1' Hnames1 H1.
    induction before as [|b before IH]; intros names1 names1' Ha Hb.
    - by apply Forall2_nil_inv_l in Ha as ->; apply Forall2_nil_inv_l in Hb as ->.
    - apply Forall2_cons_inv_l in Ha as (x & xs & Hx & Hxs & ->).
      apply Forall2_cons_inv_l in Hb as (y & ys & Hy & Hys & ->).
      f_equal; [congruence|]. by apply IH. }
  pose proof (Forall2_length _ _ _ Hnames1) as Hlen.
  exists s1, s2, result, n. split; [exact Hbefore|]. split; [exact Hblock|].
  split.
  { rewrite Hlen. rewrite lookup_app_r by lia. by rewrite Nat.sub_diag. }
  rewrite Hlen, take_app_length.
  rewrite Henv2, Henv1. unfold note_name.
  destruct (decide (n ∈ first_occurrences names1)) as [Hin|Hout];
    destruct (decide (n ∈ names1)) as [Hin'|Hout']; try reflexivity.
  - by rewrite app_nil_r.
  - exfalso. apply fold_note_name_elem in Hin as [Hin|Hin]; [|done].
    by apply not_elem_of_nil in Hin.
  - exfalso. apply Hout, fold_note_name_elem. by right.
Qed.

Lemma update_env_once_per_handler_name_witness :
  let instructions := [("a.b", "handler: demo", 0); ("c.d", "", 2);
                       ("e.f", "handler: demo", 0)] in
  exists s',
    process_blocks string sample_safe_load sample_handlers instructions initial_state =
      (Returned (), s') /\
    env_updates s' = ["demo"; "python"].
Proof.
  intros instructions.
  destruct (process_blocks string sample_safe_load sample_handlers instructions
                           initial_state) as [[[]|e] s'] eqn:Hrun.
  - exists s'. split; [reflexivity|].
    destruct (update_env_once_per_handler_name string sample_safe_load
                sample_handlers instructions initial_state s' eq_refl eq_refl Hrun)
      as (names & Hnames & -> & _).
    apply Forall2_cons_inv_l in Hnames as (n1 & r1 & H1 & Hnames & ->).
    apply Forall2_cons_inv_l in Hnames as (n2 & r2 & H2 & Hnames & ->).
    apply Forall2_cons_inv_l in Hnames as (n3 & r3 & H3 & Hnames & ->).
    apply Forall2_nil_inv_l in Hnames as ->.
    injection H1 as <-. injection H2 as <-. injection H3 as <-.
    reflexivity.
  - vm_compute in Hrun. discriminate Hrun.
Defined.

(** * Further properties *)

(** ** Lines of a block *)

Lemma length_append (s1 s2 : string) :
  String.length (s1 +:+ s2) = (String.length s1 + String.length s2)%nat.
Proof.
  induction s1 as [|a s IH]; [reflexivity|].
  change (String a s +:+ s2) with (String a (s +:+ s2)). cbn. by rewrite IH.
Qed.

Lemma append_cons (a : ascii) (s1 s2 : string) :
  String a s1 +:+ s2 = String a (s1 +:+ s2).
Proof. reflexivity. Qed.

Lemma str_take_append (p x : string) : str_take (String.length p) (p +:+ x) = p.
Proof.
  induction p as [|a p IH]; [by destruct x|].
  rewrite append_cons. cbn. by rewrite IH.
Qed.

Lemma str_drop_append (p x : string) (n : nat) :
  str_drop (String.length p + n) (p +:+ x) = str_drop n x.
Proof.
  induction p as [|a p IH]; [reflexivity|].
  rewrite append_cons. cbn. exact IH.
Qed.

Lemma str_drop_length (s : string) : str_drop (String.length s) s = "".
Proof. induction s as [|a s IH]; [reflexivity|]. exact IH. Qed.

Lemma str_drop_0 (s : string) : str_drop 0 s = s.
Proof. by destruct s. Qed.

Lemma split_lines_not_nil (s : string) : split_lines s <> [].
Proof.
  induction s as [|c s IH]; cbn; [discriminate|].
  destruct (Ascii.eqb c "010"); [discriminate|].
  destruct (split_lines s); discriminate.
Qed.

(** Joining the lines of a text gives the text back. *)
Lemma join_split_lines (s : string) : join_lines (split_lines s) = s.
Proof.
  induction s as [|c s IH]; [reflexivity|]. cbn [split_lines].
  destruct (Ascii.eqb c "010") eqn:E.
  - apply Ascii.eqb_eq in E as ->.
    pose proof (split_lines_not_nil s) as Hne.
    destruct (split_lines s) as [|l ls] eqn:El; [done|].
    change (join_lines ("" :: l :: ls)) with ("" +:+ newline +:+ join_lines (l :: ls)).
    rewrite IH. reflexivity.
  - pose proof (split_lines_not_nil s) as Hne.
    destruct (split_lines s) as [|l ls] eqn:El; [done|].
    destruct ls as [|l' ls'].
    + cbn in *. by rewrite IH.
    + change (join_lines (String c l :: l' :: ls'))
        with (String c l +:+ newline +:+ join_lines (l' :: ls')).
      change (join_lines (l :: l' :: ls'))
        with (l +:+ newline +:+ join_lines (l' :: ls')) in IH.
      rewrite append_cons, IH. reflexivity.
Qed.

Lemma split_lines_no_newline (s : string) :
  Forall (fun line => no_newline line = true) (split_lines s).
Proof.
  induction s as [|c s IH]; cbn [split_lines]; [by repeat constructor|].
  destruct (Ascii.eqb c "010") eqn:E; [by constructor|].
  destruct (split_lines s) as [|l ls]; [by repeat constructor; cbn; rewrite E|].
  apply Forall_cons in IH as [Hl Hls]. constructor; [|exact Hls].
  cbn. by rewrite E, Hl.
Qed.

(** A line followed by a line break and a text splits into the line and the
    lines of the text. *)
Lemma split_lines_line (line s : string) :
  no_newline line = true ->
  split_lines (line +:+ newline +:+ s) = line :: split_lines s.
Proof.
  induction line as [|c line IH]; intros Hnl; [reflexivity|].
  cbn in Hnl. apply andb_true_iff in Hnl as [Hc Hline].
  apply negb_true_iff in Hc. rewrite append_cons. cbn [split_lines].
  rewrite Hc, (IH Hline). reflexivity.
Qed.

Lemma split_lines_single (line : string) :
  no_newline line = true -> split_lines line = [line].
Proof.
  induction line as [|c line IH]; intros Hnl; [reflexivity|].
  cbn in Hnl. apply andb_true_iff in Hnl as [Hc Hline].
  apply negb_true_iff in Hc. cbn [split_lines]. by rewrite Hc, (IH Hline).
Qed.

(** ** The instruction regex *)

Lemma span_char_no_newline (c : ascii) (s : string) :
  no_newline s = true -> no_newline (span_char c s).2 = true.
Proof.
  induction s as [|a s IH]; intros Hnl; [reflexivity|]. cbn [span_char].
  destruct (Ascii.eqb a c); [|exact Hnl].
  cbn in Hnl. apply andb_true_iff in Hnl as [_ Hs].
  specialize (IH Hs). destruct (span_char c s). exact IH.
Qed.

Lemma str_drop_no_newline (n : nat) (s : string) :
  no_newline s = true -> no_newline (str_drop n s) = true.
Proof.
  revert s. induction n as [|n IH]; intros s Hnl; [by destruct s|].
  destruct s as [|a s]; [reflexivity|]. cbn in *.
  apply andb_true_iff in Hnl as [_ Hs]. by apply IH.
Qed.

Lemma rstrip_blanks_no_newline (s : string) :
  no_newline s = true -> no_newline (rstrip_blanks s) = true.
Proof.
  induction s as [|a s IH]; intros Hnl; [reflexivity|]. cbn in *.
  apply andb_true_iff in Hnl as [Ha Hs].
  destruct (Ascii.eqb a " " && String.eqb (rstrip_blanks s) ""); [reflexivity|].
  cbn. by rewrite Ha, (IH Hs).
Qed.

Lemma match_name_no_newline (rest name : string) :
  no_newline rest = true -> match_name rest = Some name -> no_newline name = true.
Proof.
  destruct rest as [|c rest]; [discriminate|]. cbn. intros Hnl [= <-].
  apply andb_true_iff in Hnl as [Hc Hrest]. cbn.
  by rewrite Hc, (rstrip_blanks_no_newline _ Hrest).
Qed.

Lemma match_after_colons_name (rest name : string) :
  match_after_colons rest = Some name ->
  name <> "" /\ (no_newline rest = true -> no_newline name = true).
Proof.
  intros H.
  assert (exists rest', match_name rest' = Some name /\
                        (no_newline rest = true -> no_newline rest' = true))
    as (rest' & Hname & Hnl).
  { unfold match_after_colons in H.
    destruct rest as [|a rest]; [by exists ""|].
    destruct (Ascii.eqb a " ") eqn:Ea.
    - apply Ascii.eqb_eq in Ea as ->.
      destruct rest as [|c rest]; [by exists " "|].
      exists (String c rest). split; [exact H|].
      cbn. intros Hn. exact Hn.
    - exists (String a rest). split; [|done].
      destruct a as [[] [] [] [] [] [] [] []]; try exact H; discriminate Ea. }
  split.
  - destruct rest' as [|c r]; [discriminate|]. cbn in Hname.
    injection Hname as <-. discriminate.
  - intros Hrest. eapply match_name_no_newline; [|exact Hname]. by apply Hnl.
Qed.

(** What a matching line gives: at most six [#], and a name that is not
    empty and has no line break when the line has none. *)
Lemma match_line_groups (line name : string) (h : nat) :
  match_line line = Some (h, name) ->
  (h <= 6)%nat /\ name <> "" /\ (no_newline line = true -> no_newline name = true).
Proof.
  unfold match_line. pose proof (span_char_no_newline "#" line) as Hsp.
  destruct (span_char "#" line) as [hs after_hashes]. cbn [snd] in Hsp.
  intros H.
  assert (exists rest, (h <= 6)%nat /\
            (no_newline line = true -> no_newline rest = true) /\
            match_after_colons (str_drop 3 rest) = Some name)
    as (rest & Hh & Hnl & Hname).
  { destruct (hs =? 0)%nat eqn:E0.
    - exists line. apply Nat.eqb_eq in E0 as ->.
      destruct (startswith ":::" line); [|discriminate].
      destruct (match_after_colons (str_drop 3 line)) as [n|] eqn:En;
        [|discriminate].
      cbn in H. injection H as <- <-. split; [lia|]. split; [done|reflexivity].
    - destruct (hs <=? 6)%nat eqn:E6; [|discriminate].
      exists (span_char " " after_hashes).2.
      destruct (startswith ":::" (span_char " " after_hashes).2); [|discriminate].
      destruct (match_after_colons (str_drop 3 (span_char " " after_hashes).2))
        as [n|] eqn:En; [|discriminate].
      cbn in H. injection H as <- <-. apply Nat.leb_le in E6.
      split; [exact E6|]. split; [|reflexivity].
      intros Hline. apply span_char_no_newline, Hsp, Hline. }
  split; [exact Hh|].
  destruct (match_after_colons_name _ _ Hname) as [Hne Hnn].
  split; [exact Hne|]. intros Hline.
  apply Hnn, str_drop_no_newline, Hnl, Hline.
Qed.

(** [search] over lines: the first line that matches is found, and the text
    splits around it. *)
Lemma search_lines_slice (lines : list string) :
  forall (offset : nat) (m : Match),
    Forall (fun line => no_newline line = true) lines ->
    search_lines offset lines = Some m ->
    exists prefix line rest,
      join_lines lines = prefix +:+ line +:+ rest /\
      match_start m = (offset + String.length prefix)%nat /\
      match_end m = (match_start m + String.length line)%nat /\
      match_line line = Some (match_hashes m, match_name_group m) /\
      no_newline line = true /\
      (prefix = "" \/ exists p, prefix = p +:+ newline) /\
      (rest = "" \/ exists r, rest = newline +:+ r) /\
      (forall o, search_lines o (split_lines prefix) = None).
Proof.
  induction lines as [|line0 lines IH]; intros offset m Hnl Hsearch;
    [discriminate|].
  apply Forall_cons in Hnl as [Hnl0 Hnl].
  cbn [search_lines] in Hsearch.
  destruct (match_line line0) as [[h name]|] eqn:Hline.
  - injection Hsearch as <-. cbn [match_start match_end match_hashes match_name_group].
    exists "", line0, (match lines with [] => "" | _ => newline +:+ join_lines lines end).
    split.
    { destruct lines; [|reflexivity].
      change (line0 = line0 +:+ ""). by rewrite append_empty_r. }
    split; [cbn; lia|]. split; [reflexivity|].
    split; [exact Hline|]. split; [exact Hnl0|]. split; [by left|].
    split; [destruct lines; [by left|right; by eexists]|].
    intros o. reflexivity.
  - destruct (IH _ _ Hnl Hsearch)
      as (prefix & line & rest & Hjoin & Hstart & Hend & Hmatch & Hnline & Hp & Hr & Hno).
    exists (line0 +:+ newline +:+ prefix), line, rest.
    split.
    { destruct lines as [|l ls]; [discriminate Hsearch|].
      change (join_lines (line0 :: l :: ls))
        with (line0 +:+ newline +:+ join_lines (l :: ls)).
      rewrite Hjoin, !append_assoc. reflexivity. }
    split.
    { rewrite Hstart, !length_append. cbn. lia. }
    split; [exact Hend|]. split; [exact Hmatch|]. split; [exact Hnline|].
    split.
    { right. destruct Hp as [->|[p ->]].
      - exists line0. by rewrite append_empty_r.
      - exists (line0 +:+ newline +:+ p). by rewrite !append_assoc. }
    split; [exact Hr|].
    intros o. rewrite split_lines_line by exact Hnl0.
    cbn [search_lines]. rewrite Hline. apply Hno.
Qed.

(** X1.  When the regex is found in a block, the match is one whole line of
    the block: the block is the text before the match, the line and the text
    after it; the text before is empty or ends with a line break and has no
    match itself; the text after is empty or starts with a line break; the
    line has at most six [#] and a name that is not empty and has no line
    break. *)
Theorem regex_search_matches_whole_line (block : string) (m : Match) :
  regex_search block = Some m ->
  exists line,
    block = str_take (match_start m) block +:+ line +:+ str_drop (match_end m) block /\
    match_end m = (match_start m + String.length line)%nat /\
    match_line line = Some (match_hashes m, match_name_group m) /\
    no_newline line = true /\
    (match_hashes m <= 6)%nat /\
    match_name_group m <> "" /\
    no_newline (match_name_group m) = true /\
    (match_start m = 0%nat \/
     exists p, str_take (match_start m) block = p +:+ newline) /\
    (str_drop (match_end m) block = "" \/
     exists r, str_drop (match_end m) block = newline +:+ r) /\
    test (str_take (match_start m) block) = false.
Proof.
  intros Hsearch. unfold regex_search in Hsearch.
  destruct (search_lines_slice _ _ _ (split_lines_no_newline block) Hsearch)
    as (prefix & line & rest & Hjoin & Hstart & Hend & Hmatch & Hnline & Hp & Hr & Hno).
  rewrite join_split_lines in Hjoin. cbn in Hstart.
  assert (str_take (match_start m) block = prefix) as Htake.
  { rewrite Hstart, Hjoin. apply str_take_append. }
  assert (str_drop (match_end m) block = rest) as Hdrop.
  { rewrite Hend, Hstart, Hjoin, str_drop_append.
    rewrite <- (Nat.add_0_r (String.length line)), str_drop_append.
    apply str_drop_0. }
  destruct (match_line_groups _ _ _ Hmatch) as (H6 & Hne & Hnn).
  exists line. rewrite Htake, Hdrop.
  split; [exact Hjoin|]. split; [exact Hend|]. split; [exact Hmatch|].
  split; [exact Hnline|]. split; [exact H6|]. split; [exact Hne|].
  split; [by apply Hnn|]. split.
  { destruct Hp as [->|Hp]; [left; by rewrite Hstart|by right]. }
  split; [exact Hr|].
  unfold test, regex_search. by rewrite Hno.
Qed.

Lemma regex_search_matches_whole_line_witness :
  exists line,
    example_block = "prefix" +:+ newline +:+ line +:+
                    str_drop 14 example_block /\
    match_line line = Some (0%nat, "a.b").
Proof.
  destruct (regex_search_matches_whole_line example_block (mkMatch 7 14 0 "a.b")
              eq_refl) as (line & Hblock & _ & Hmatch & _).
  exists line. split; [exact Hblock|exact Hmatch].
Defined.

Lemma span_char_hashes (k : nat) (rest : string) :
  (forall r, rest <> String "#" r) ->
  span_char "#" (hashes k +:+ rest) = (k, rest).
Proof.
  intros Hrest. induction k as [|k IH].
  - change (hashes 0 +:+ rest) with rest.
    destruct rest as [|a r]; [reflexivity|]. cbn [span_char].
    destruct (Ascii.eqb a "#") eqn:E; [|reflexivity].
    apply Ascii.eqb_eq in E as ->. by destruct (Hrest r).
  - change (hashes (S k) +:+ rest) with (String "#" (hashes k +:+ rest)).
    cbn [span_char]. rewrite Ascii.eqb_refl, IH. reflexivity.
Qed.

Lemma span_char_spaces (b : nat) (rest : string) :
  (forall r, rest <> String " " r) ->
  span_char " " (spaces b +:+ rest) = (b, rest).
Proof.
  intros Hrest. induction b as [|b IH].
  - change (spaces 0 +:+ rest) with rest.
    destruct rest as [|a r]; [reflexivity|]. cbn [span_char].
    destruct (Ascii.eqb a " ") eqn:E; [|reflexivity].
    apply Ascii.eqb_eq in E as ->. by destruct (Hrest r).
  - change (spaces (S b) +:+ rest) with (String " " (spaces b +:+ rest)).
    cbn [span_char]. rewrite Ascii.eqb_refl, IH. reflexivity.
Qed.

Lemma rstrip_blanks_spaces (t : nat) : rstrip_blanks (spaces t) = "".
Proof. induction t as [|t IH]; [reflexivity|]. cbn. by rewrite IH. Qed.

Lemma rstrip_blanks_append_spaces (s : string) (t : nat) :
  rstrip_blanks (s +:+ spaces t) = rstrip_blanks s.
Proof.
  induction s as [|a s IH]; [apply rstrip_blanks_spaces|].
  rewrite append_cons. cbn [rstrip_blanks]. by rewrite IH.
Qed.

Lemma startswith_colons (rest : string) : startswith ":::" (":::" +:+ rest) = true.
Proof. reflexivity. Qed.

Lemma str_drop_colons (rest : string) : str_drop 3 (":::" +:+ rest) = rest.
Proof. reflexivity. Qed.

(** The groups of an instruction line, as [match_line] finds them on one
    line of a block. *)
Lemma match_line_instruction_groups (k b t : nat) (identifier : string) :
  (k <= 6)%nat ->
  (k = 0%nat -> b = 0%nat) ->
  identifier <> "" ->
  rstrip_blanks identifier = identifier ->
  match_line (hashes k +:+ spaces b +:+ "::: " +:+ identifier +:+ spaces t) =
  Some (k, identifier).
Proof.
  intros Hk Hb Hne Hstrip.
  destruct identifier as [|c r]; [done|].
  assert (rstrip_blanks r = r) as Hr.
  { cbn in Hstrip.
    destruct (Ascii.eqb c " " && String.eqb (rstrip_blanks r) ""); [discriminate|].
    by injection Hstrip. }
  assert (match_after_colons (" " +:+ String c r +:+ spaces t) = Some (String c r))
    as Hname.
  { change (" " +:+ String c r +:+ spaces t)
      with (String " " (String c (r +:+ spaces t))).
    cbn [match_after_colons match_name].
    by rewrite rstrip_blanks_append_spaces, Hr. }
  unfold match_line.
  rewrite span_char_hashes.
  2:{ intros r' H. destruct b; discriminate H. }
  destruct k as [|k].
  - rewrite (Hb eq_refl). cbn [Nat.eqb].
    change (hashes 0 +:+ spaces 0 +:+ "::: " +:+ String c r +:+ spaces t)
      with (":::" +:+ " " +:+ String c r +:+ spaces t).
    rewrite startswith_colons, str_drop_colons, Hname. reflexivity.
  - cbn [Nat.eqb]. assert ((S k <=? 6)%nat = true) as -> by (apply Nat.leb_le; lia).
    rewrite span_char_spaces by (intros r' H; discriminate H). cbn [snd].
    change ("::: " +:+ String c r +:+ spaces t)
      with (":::" +:+ " " +:+ String c r +:+ spaces t).
    rewrite startswith_colons, str_drop_colons, Hname. reflexivity.
Qed.

Lemma regex_search_single_line (line name : string) (h : nat) :
  no_newline line = true ->
  match_line line = Some (h, name) ->
  regex_search line = Some (mkMatch 0 (String.length line) h name).
Proof.
  intros Hnl Hmatch. unfold regex_search.
  rewrite split_lines_single by exact Hnl. cbn [search_lines].
  by rewrite Hmatch.
Qed.

Lemma no_newline_append (s1 s2 : string) :
  no_newline (s1 +:+ s2) = no_newline s1 && no_newline s2.
Proof.
  induction s1 as [|c s1 IH]; [reflexivity|].
  rewrite append_cons. cbn [no_newline]. by rewrite IH, andb_assoc.
Qed.

Lemma no_newline_hashes (k : nat) : no_newline (hashes k) = true.
Proof. induction k as [|k IH]; [reflexivity|exact IH]. Qed.

Lemma no_newline_spaces (b : nat) : no_newline (spaces b) = true.
Proof. induction b as [|b IH]; [reflexivity|exact IH]. Qed.

(** X2.  An instruction line is read back as written.  For a block that is
    the single line made of [k] signs [#] (at most six) followed by blanks
    (none when there is no [#]), then [::: ] and an identifier that is not
    empty, has no line break and does not end with a blank, then any number of
    blanks: the regex is found at the start of the block, the match covers the
    whole line, the count of [#] is [k] and the name is the identifier. *)
Theorem regex_search_instruction_line (k b t : nat) (identifier : string) :
  (k <= 6)%nat ->
  (k = 0%nat -> b = 0%nat) ->
  identifier <> "" ->
  no_newline identifier = true ->
  rstrip_blanks identifier = identifier ->
  let line := hashes k +:+ spaces b +:+ "::: " +:+ identifier +:+ spaces t in
  regex_search line = Some (mkMatch 0 (String.length line) k identifier) /\
  test line = true.
Proof.
  intros Hk Hb Hne Hnl Hstrip line.
  assert (regex_search line = Some (mkMatch 0 (String.length line) k identifier))
    as Hsearch.
  { apply regex_search_single_line.
    - unfold line. rewrite !no_newline_append, no_newline_hashes, no_newline_spaces,
        no_newline_spaces, Hnl. reflexivity.
    - by apply match_line_instruction_groups. }
  split; [exact Hsearch|]. unfold test. by rewrite Hsearch.
Qed.

Lemma regex_search_instruction_line_witness :
  regex_search "##  ::: pkg.mod.Class   " = Some (mkMatch 0 24 2 "pkg.mod.Class").
Proof.
  apply (regex_search_instruction_line 2 2 3 "pkg.mod.Class");
    [lia|lia|discriminate|reflexivity|reflexivity].
Defined.

(** ** detab *)

Lemma join_lines_app (l1 l2 : list string) :
  l1 <> [] -> l2 <> [] ->
  join_lines (l1 ++ l2) = join_lines l1 +:+ newline +:+ join_lines l2.
Proof.
  intros H1 H2. induction l1 as [|a l1 IH]; [done|].
  destruct l1 as [|b l1].
  - destruct l2 as [|c l2]; [done|]. reflexivity.
  - change (join_lines ((a :: b :: l1) ++ l2))
      with (a +:+ newline +:+ join_lines ((b :: l1) ++ l2)).
    rewrite IH by discriminate.
    change (join_lines (a :: b :: l1)) with (a +:+ newline +:+ join_lines (b :: l1)).
    by rewrite !append_assoc.
Qed.

Lemma join_lines_empty (lines : list string) (line : string) :
  line <> "" -> join_lines (line :: lines) <> "".
Proof.
  intros Hne. destruct line as [|c line]; [done|].
  destruct lines; discriminate.
Qed.

(** The lines [detab] takes are the longest run of leading lines that are
    indented or blank. *)
Lemma detab_lines_split (n : nat) (lines : list string) :
  let consumed := take (List.length (detab_lines n lines)) lines in
  let remaining := drop (List.length (detab_lines n lines)) lines in
  detab_lines n lines =
    map (fun line => if startswith (spaces n) line then str_drop n line else "")
        consumed /\
  Forall (fun line => startswith (spaces n) line = true \/ is_blank line = true)
         consumed /\
  match remaining with
  | [] => True
  | line :: _ => startswith (spaces n) line = false /\ is_blank line = false
  end.
Proof.
  induction lines as [|line lines IH]; [by repeat split|].
  cbn [detab_lines].
  destruct (startswith (spaces n) line) eqn:Hs.
  - destruct IH as (Hmap & Hall & Hrest).
    cbn [List.length take drop map]. rewrite Hs.
    split; [by f_equal|]. split; [constructor; [by left|exact Hall]|exact Hrest].
  - destruct (is_blank line) eqn:Hb.
    + destruct IH as (Hmap & Hall & Hrest).
      cbn [List.length take drop map]. rewrite Hs.
      split; [by f_equal|]. split; [constructor; [by right|exact Hall]|exact Hrest].
    + cbn. by repeat split.
Qed.

(** A line of white space other than ASCII is blank too: a no-break space
    alone on the first line is taken by [detab] as an empty line. *)
Example detab_no_break_space :
  detab 4 (String "160" newline +:+ "foo") = ("", "foo") /\
  detab 4 (String "133" newline +:+ "foo") = ("", "foo").
Proof. split; reflexivity. Qed.

(** X3.  [detab] splits the lines of a text in two: the longest run of
    leading lines that start with [length] blanks or are blank (nothing but
    characters that [str.strip()] removes, characters being code points below
    256), which is returned without the [length] blanks (a blank line that is
    not indented becomes empty), and the remaining lines, which are returned
    untouched.  When lines remain, the first of them is neither indented nor
    blank, the rest returned is not empty, and the text ends with it. *)
Theorem detab_splits_text (length : nat) (text : string) :
  exists consumed remaining : list string,
    split_lines text = consumed ++ remaining /\
    Forall (fun line => startswith (spaces length) line = true \/
                        is_blank line = true) consumed /\
    (detab length text).1 =
      join_lines
        (map (fun line => if startswith (spaces length) line
                          then str_drop length line else "") consumed) /\
    (detab length text).2 = join_lines remaining /\
    match remaining with
    | [] => (detab length text).2 = ""
    | line :: _ =>
        startswith (spaces length) line = false /\
        is_blank line = false /\
        (detab length text).2 <> "" /\
        exists before, text = before +:+ (detab length text).2
    end.
Proof.
  unfold detab. cbn [fst snd].
  destruct (detab_lines_split length (split_lines text)) as (Hmap & Hall & Hrest).
  set (k := List.length (detab_lines length (split_lines text))) in *.
  exists (take k (split_lines text)), (drop k (split_lines text)).
  split; [by rewrite take_drop|]. split; [exact Hall|].
  split; [by rewrite Hmap|]. split; [reflexivity|].
  destruct (drop k (split_lines text)) as [|line rest] eqn:Hdrop; [reflexivity|].
  destruct Hrest as [Hs Hb]. split; [exact Hs|]. split; [exact Hb|].
  split.
  { apply join_lines_empty. intros ->. discriminate Hb. }
  pose proof (join_split_lines text) as Hjoin.
  rewrite <- (take_drop k (split_lines text)), Hdrop in Hjoin.
  destruct (take k (split_lines text)) as [|c cs] eqn:Htake.
  - exists "". exact (eq_sym Hjoin).
  - rewrite join_lines_app in Hjoin by discriminate.
    exists (join_lines (c :: cs) +:+ newline). by rewrite append_assoc.
Qed.

Lemma detab_empty (length : nat) : detab length "" = ("", "").
Proof. destruct length; reflexivity. Qed.

(** The rest [detab] returns is the end of the text. *)
Lemma detab_rest_suffix (length : nat) (text : string) :
  exists before, text = before +:+ (detab length text).2.
Proof.
  unfold detab. cbn [snd].
  set (k := List.length (detab_lines length (split_lines text))).
  pose proof (join_split_lines text) as Hjoin.
  rewrite <- (take_drop k (split_lines text)) in Hjoin.
  destruct (drop k (split_lines text)) as [|line rest].
  - exists text. by rewrite append_empty_r.
  - destruct (take k (split_lines text)) as [|c cs].
    + exists "". exact (eq_sym Hjoin).
    + rewrite join_lines_app in Hjoin by discriminate.
      exists (join_lines (c :: cs) +:+ newline). by rewrite append_assoc.
Qed.

(** ** What [run] does with the pending blocks *)

(** X4.  When the first block is an instruction line alone, the
    configuration is looked for in the next block: a next block that starts
    with [    handler:] or [    options:] is taken whole, with its
    indentation, as the configuration text and leaves the pending blocks;
    any other next block stays pending and the configuration text is empty.
    Nothing is handed back to the generic parser and nothing is put back. *)
Theorem match_block_config_after_blank_line (tab_length : nat) (line next : string)
    (others : list string) (h : nat) (name : string) :
  no_newline line = true ->
  match_line line = Some (h, name) ->
  match_block tab_length (line :: next :: others) =
  Returned
    (if starts_with_config next
     then mkMatched None (Some (mkMatch 0 (String.length line) h name)) next ""
                    others
     else mkMatched None (Some (mkMatch 0 (String.length line) h name)) "" ""
                    (next :: others)).
Proof.
  intros Hnl Hmatch. unfold match_block.
  rewrite (regex_search_single_line _ _ _ Hnl Hmatch).
  cbn [match_start match_end Nat.ltb Nat.leb].
  rewrite str_drop_length, detab_empty.
  change (negb (str_truthy "")) with true. cbn [andb].
  destruct (starts_with_config next); reflexivity.
Qed.

Lemma match_block_config_after_blank_line_witness :
  match_block 4 ["::: a.b"; "    options:" +:+ newline +:+ "      x: 1"; "tail"] =
  Returned (mkMatched None (Some (mkMatch 0 7 0 "a.b"))
                      ("    options:" +:+ newline +:+ "      x: 1") "" ["tail"]).
Proof.
  exact (match_block_config_after_blank_line
           4 "::: a.b" ("    options:" +:+ newline +:+ "      x: 1") ["tail"] 0 "a.b"
           eq_refl eq_refl).
Defined.

(** X5.  What is put back is the end of the block that was taken, and a
    block with an instruction is never put back whole: the text in front of
    what is put back is not empty, so what is put back is shorter than the
    block.  The blocks still pending are the blocks after the first, or after
    the second when the second was taken as configuration. *)
Theorem match_block_makes_progress (tab_length : nat) (block : string)
    (others : list string) (matched : Matched) :
  test block = true ->
  match_block tab_length (block :: others) = Returned matched ->
  (exists before,
     block = before +:+ the_rest matched /\ before <> "" /\
     (String.length (the_rest matched) < String.length block)%nat) /\
  (pending matched = others \/
   exists next, others = next :: pending matched /\ yaml_block matched = next).
Proof.
  intros Htest Hmatched. unfold test in Htest. unfold match_block in Hmatched.
  destruct (regex_search block) as [m|] eqn:Hsearch; [|discriminate Htest].
  unfold regex_search in Hsearch.
  destruct (search_lines_slice _ _ _ (split_lines_no_newline block) Hsearch)
    as (prefix & line & rest & Hjoin & Hstart & Hend & Hline & _).
  rewrite join_split_lines in Hjoin.
  assert (str_drop (match_end m) block = rest) as Hdrop.
  { rewrite Hend, Hstart, Hjoin. cbn [Nat.add]. rewrite str_drop_append.
    rewrite <- (Nat.add_0_r (String.length line)), str_drop_append.
    apply str_drop_0. }
  rewrite Hdrop in Hmatched.
  destruct (detab_rest_suffix tab_length rest) as (mid & Hrest).
  destruct (detab tab_length rest) as [detabbed unindented] eqn:Hdetab.
  cbn [snd] in Hrest.
  assert (line <> "") as Hne by (intros ->; discriminate Hline).
  assert (the_rest matched = unindented /\
          (pending matched = others \/
           exists next, others = next :: pending matched /\ yaml_block matched = next))
    as [Hthe Hpending].
  { destruct others as [|next others'].
    - injection Hmatched as <-. split; [reflexivity|by left].
    - destruct (negb (str_truthy detabbed) && starts_with_config next);
        injection Hmatched as <-; (split; [reflexivity|]).
      + right. by exists next.
      + by left. }
  split; [|exact Hpending].
  exists (prefix +:+ line +:+ mid). rewrite Hthe. split.
  { rewrite Hjoin, Hrest, !append_assoc. reflexivity. }
  split.
  { destruct prefix; [|discriminate]. destruct line; [done|discriminate]. }
  rewrite Hjoin, Hrest, !length_append.
  destruct line; [done|]. cbn. lia.
Qed.

Lemma match_block_makes_progress_witness :
  exists before,
    example_block = before +:+ "suffix" /\ before <> "".
Proof.
  destruct (match_block_makes_progress 4 example_block []
              (mkMatched (Some ("prefix" +:+ newline)) (Some (mkMatch 7 14 0 "a.b"))
                         (newline +:+ "opt: 1") "suffix" [])
              eq_refl eq_refl) as [(before & Hblock & Hne & _) _].
  exists before. split; [exact Hblock|exact Hne].
Defined.

(** ** Failures and effects of [_process_block] *)

Section ProcessBlock.
Variable CollectorItem : Type.
Variable safe_load : string -> outcome py_value.
Variable handlers : Handlers CollectorItem.

(** [_process_block] is the resolution of the block followed by: collect,
    update the environment once, render. *)
Lemma process_block_resolve (identifier yaml_block : string) (heading_level : Z)
    (s : State) :
  _process_block CollectorItem safe_load handlers identifier yaml_block heading_level s =
  match resolve_block safe_load handlers yaml_block heading_level with
  | Raised e => (Raised e, s)
  | Returned (handler_name, handler, options) =>
      (data ← lift (collect_or_fail CollectorItem handler identifier options);
       _ ← update_env_once CollectorItem handler_name handler;
       rendered ← lift (render handler data options);
       mret (rendered, handler, data)) s
  end.
Proof.
  unfold _process_block, resolve_block, mbind, M_bind, outcome_bind, lift.
  destruct (load_config safe_load yaml_block) as [config|e]; [|reflexivity].
  destruct (get_handler_name handlers config) as [n|e]; [|reflexivity].
  destruct (get_handler_config handlers n) as [hc|e]; [|reflexivity].
  destruct (get_handler handlers n hc) as [handler|e]; [|reflexivity].
  destruct (py_get hc "options" (PyDict [])) as [g|e]; [|reflexivity].
  destruct (py_get config "options" (PyDict [])) as [l|e]; reflexivity.
Qed.

(** X6.  When the handler cannot collect the identifier, [_process_block]
    raises the error [Could not collect 'identifier'] in place of the
    handler's error, and nothing has happened: the environment hook was not
    called and the state is the one before the call. *)
Theorem process_block_collection_error (identifier yaml_block : string)
    (heading_level : Z) (s : State) (handler_name : string)
    (handler : BaseHandler CollectorItem) (options : Mapping) (msg : string) :
  resolve_block safe_load handlers yaml_block heading_level =
    Returned (handler_name, handler, options) ->
  collect handler identifier options = Raised (CollectionError msg) ->
  _process_block CollectorItem safe_load handlers identifier yaml_block heading_level s =
  (Raised (PluginError ("Could not collect '" +:+ identifier +:+ "'")), s).
Proof.
  intros Hres Hcollect. rewrite process_block_resolve, Hres.
  unfold mbind, M_bind, lift, collect_or_fail. rewrite Hcollect. reflexivity.
Qed.


(** X8.  When the environment hook itself raises, the error leaves
    [_process_block], nothing is rendered, and the handler is not marked as
    updated: [self._updated_envs] is unchanged, so the next block of the same
    handler calls the hook again. *)
Theorem process_block_hook_error (identifier yaml_block : string)
    (heading_level : Z) (s : State) (handler_name : string)
    (handler : BaseHandler CollectorItem) (options : Mapping)
    (data : CollectorItem) (e : exn) :
  resolve_block safe_load handlers yaml_block heading_level =
    Returned (handler_name, handler, options) ->
  collect handler identifier options = Returned data ->
  handler_name ∉ _updated_envs s ->
  _update_env handler = Raised e ->
  exists s',
    _process_block CollectorItem safe_load handlers identifier yaml_block
                   heading_level s = (Raised e, s') /\
    _updated_envs s' = _updated_envs s /\
    env_updates s' = env_updates s ++ [handler_name] /\
    same_outputs s s'.
Proof.
  intros Hres Hcollect Hout Hhook. rewrite process_block_resolve, Hres.
  unfold mbind, M_bind, lift, collect_or_fail, update_env_once.
  rewrite Hcollect. rewrite decide_False by exact Hout.
  unfold mbind, M_bind, call_update_env. rewrite Hhook.
  eexists. split; [reflexivity|]. by repeat split.
Qed.

(** X9.  [_process_block] leaves the inventory, the registered anchors and
    the stash alone, whether it returns or raises. *)
Theorem process_block_same_outputs (identifier yaml_block : string)
    (heading_level : Z) (s : State) :
  same_outputs s
    (_process_block CollectorItem safe_load handlers identifier yaml_block
                    heading_level s).2.
Proof.
  rewrite process_block_resolve.
  destruct (resolve_block safe_load handlers yaml_block heading_level)
    as [[[n handler] options]|e]; [|by repeat split].
  unfold mbind, M_bind, lift.
  destruct (collect_or_fail CollectorItem handler identifier options) as [data|e];
    [|by repeat split].
  unfold update_env_once.
  destruct (decide (n ∈ _updated_envs s)) as [Hin|Hout].
  - destruct (render handler data options); by repeat split.
  - unfold mbind, M_bind, call_update_env, add_updated_env.
    destruct (_update_env handler); [|by repeat split].
    destruct (render handler data options); by repeat split.
Qed.

(** X10.  When [_process_block] returns, the handler it returns is the one
    the block resolved to, the data is what this handler collected for the
    identifier with the options of the block, and the markup is the render of
    that data with the same options. *)
Theorem process_block_result (identifier yaml_block : string)
    (heading_level : Z) (s s' : State) (html : string)
    (handler : BaseHandler CollectorItem) (data : CollectorItem) :
  _process_block CollectorItem safe_load handlers identifier yaml_block heading_level s =
    (Returned (html, handler, data), s') ->
  exists handler_name options,
    resolve_block safe_load handlers yaml_block heading_level =
      Returned (handler_name, handler, options) /\
    collect handler identifier options = Returned data /\
    render handler data options = Returned html /\
    handler_name ∈ _updated_envs s'.
Proof.
  rewrite process_block_resolve.
  destruct (resolve_block safe_load handlers yaml_block heading_level)
    as [[[n h] options]|e]; [|discriminate].
  intros Hrun.
  apply bind_returned in Hrun as (data' & s0 & Hdata & Hrun).
  apply lift_returned in Hdata as [Hdata ->].
  apply bind_returned in Hrun as ([] & s1 & Henv & Hrun).
  apply bind_returned in Hrun as (rendered & s2 & Hrender & Hrun).
  apply lift_returned in Hrender as [Hrender ->].
  apply ret_returned in Hrun as [[= <- <- <-] ->].
  exists n, options. split; [reflexivity|].
  split.
  { unfold collect_or_fail in Hdata.
    destruct (collect handler identifier options) as [d|[]];
      try discriminate Hdata; exact Hdata. }
  split; [exact Hrender|].
  unfold update_env_once in Henv.
  destruct (decide (n ∈ _updated_envs s)) as [Hin|Hout].
  - by injection Henv as <-.
  - apply bind_returned in Henv as ([] & s3 & Hcall & Hadd).
    unfold add_updated_env in Hadd. injection Hadd as <-.
    cbn [_updated_envs]. apply elem_of_union_l, elem_of_singleton. reflexivity.
Qed.

End ProcessBlock.

Lemma process_block_collection_error_witness :
  _process_block string handler_line_load faulty_handlers "a.b" "handler: nocollect" 0
                 initial_state =
  (Raised (PluginError "Could not collect 'a.b'"), initial_state).
Proof.
  exact (process_block_collection_error string handler_line_load faulty_handlers
           "a.b" "handler: nocollect" 0 initial_state "nocollect"
           (faulty_handler false true true)
           (build_options (PyDict []) (PyDict []) 0) "not found" eq_refl eq_refl).
Defined.


Lemma process_block_hook_error_witness :
  exists s',
    _process_block string handler_line_load faulty_handlers "a.b" "handler: nohook" 0
                   initial_state = (Raised (OtherError "no environment"), s') /\
    _updated_envs s' = ∅ /\
    env_updates s' = ["nohook"] /\
    same_outputs initial_state s'.
Proof.
  exact (process_block_hook_error string handler_line_load faulty_handlers
           "a.b" "handler: nohook" 0 initial_state "nohook"
           (faulty_handler true true false)
           (build_options (PyDict []) (PyDict []) 0) "a.b"
           (OtherError "no environment") eq_refl eq_refl
           (not_elem_of_empty (C:=gset string) "nohook") eq_refl).
Defined.

Lemma process_block_result_witness :
  exists s' handler_name options,
    _process_block string sample_safe_load sample_handlers "a.b" "handler: demo" 3
                   initial_state = (Returned ("<p>a.b</p>", sample_handler, "a.b"), s') /\
    resolve_block sample_safe_load sample_handlers "handler: demo" 3 =
      Returned (handler_name, sample_handler, options) /\
    render sample_handler "a.b" options = Returned "<p>a.b</p>".
Proof.
  destruct (_process_block string sample_safe_load sample_handlers "a.b"
                           "handler: demo" 3 initial_state) as [r s'] eqn:Hrun.
  assert (r = Returned ("<p>a.b</p>", sample_handler, "a.b")) as ->
    by (by injection Hrun as <- _).
  destruct (process_block_result string sample_safe_load sample_handlers "a.b"
              "handler: demo" 3 initial_state s' _ _ _ Hrun)
    as (n & options & Hres & _ & Hrender & _).
  exists s', n, options. split; [reflexivity|]. split; [exact Hres|exact Hrender].
Defined.

(** ** Options of a block *)

(** X11.  The lookup of any key in the options of a block whose local and
    global options are mappings: the local value when the local options have
    the key; else the global value when the global options have it; else the
    heading level of the instruction when the key is [heading_level] and the
    level is not zero; else [KeyError].  Values are taken whole from the
    layer that has the key. *)
Theorem options_lookup_order (local_options global_options : list (string * py_value))
    (heading_level : Z) (key : string) :
  getitem (build_options (PyDict local_options) (PyDict global_options) heading_level)
          key =
  match dict_lookup key local_options, dict_lookup key global_options with
  | Some v, _ => Returned v
  | None, Some v => Returned v
  | None, None =>
      if negb (heading_level =? 0) && String.eqb "heading_level" key
      then Returned (PyInt heading_level)
      else Raised (KeyError key)
  end.
Proof.
  rewrite getitem_build_options.
  destruct (dict_lookup key local_options); reflexivity.
Qed.

(** X12.  A configuration whose [options] entry is there without a value
    ([options:] alone loads as [None]) gives [None] as local options, not the
    default; and when the local options are not a mapping, the lookup of every
    key in the options of the block raises [TypeError], also for the keys the
    global options define. *)
Theorem options_not_a_mapping (config_items : list (string * py_value))
    (local_options global_options : py_value) (heading_level : Z) (key : string) :
  dict_lookup "options" config_items = Some local_options ->
  (forall items, local_options <> PyDict items) ->
  py_get (PyDict config_items) "options" (PyDict []) = Returned local_options /\
  getitem (build_options local_options global_options heading_level) key =
    Raised TypeError.
Proof.
  intros Hlookup Hnot. split.
  { unfold py_get. rewrite Hlookup. reflexivity. }
  unfold build_options.
  destruct (negb (heading_level =? 0)), local_options; cbn [getitem];
    try reflexivity; by destruct (Hnot items).
Qed.

Lemma options_not_a_mapping_witness :
  py_get (PyDict [("handler", PyStr "demo"); ("options", PyNone)]) "options"
         (PyDict []) = Returned PyNone /\
  getitem (build_options PyNone (PyDict [("show_source", PyBool false)]) 2)
          "show_source" = Raised TypeError.
Proof.
  apply (options_not_a_mapping [("handler", PyStr "demo"); ("options", PyNone)]
           PyNone (PyDict [("show_source", PyBool false)]) 2 "show_source" eq_refl).
  intros items H. discriminate H.
Defined.

(** ** The registrar *)

Section RegistrarEdges.
Variable CollectorItem : Type.
Variable inventory_register :
  InventoryItem -> gmap string InventoryItem -> gmap string InventoryItem.

(** X13.  A heading without an [id] attribute stops the registrar with
    [KeyError], before anything is registered for it, and the headings after
    it are not looked at. *)
Theorem register_headings_missing_id (page : string)
    (handler : BaseHandler CollectorItem) (heading : Element)
    (others : list Element) (s : State) :
  attrib heading !! "id" = None ->
  register_headings CollectorItem inventory_register page handler
                    (heading :: others) s = (Raised (KeyError "id"), s).
Proof.
  intros Hid. cbn [register_headings]. unfold mbind, M_bind, register_heading.
  rewrite Hid. reflexivity.
Qed.

(** X14.  For a heading with an [id] and no role marker, the anchor is
    registered with the page and nothing else happens: the inventory is
    unchanged. *)
Theorem register_heading_without_role (page : string)
    (handler : BaseHandler CollectorItem) (heading : Element)
    (rendered_anchor : string) (s : State) :
  attrib heading !! "id" = Some rendered_anchor ->
  attrib heading !! "data-role" = None ->
  register_heading CollectorItem inventory_register page handler heading s =
  (Returned (),
   mkState (_updated_envs s) (inventory s)
           (registered_anchors s ++ [(page, rendered_anchor)]) (html_stash s)
           (env_updates s)).
Proof.
  intros Hid Hrole. unfold register_heading. rewrite Hid, Hrole. reflexivity.
Qed.

(** X15.  When collecting the id again with the fallback configuration
    raises [CollectionError], the heading is done without an error: the
    anchor and the entry of priority 1 are registered, and no other entry
    is. *)
Theorem register_heading_fallback_fails (page : string)
    (handler : BaseHandler CollectorItem) (heading : Element)
    (rendered_anchor role msg : string) (s : State) :
  attrib heading !! "id" = Some rendered_anchor ->
  attrib heading !! "data-role" = Some role ->
  collect handler rendered_anchor (Plain (fallback_config handler)) =
    Raised (CollectionError msg) ->
  register_heading CollectorItem inventory_register page handler heading s =
  (Returned (),
   mkState (_updated_envs s)
           (inventory_register
              (mkInventoryItem rendered_anchor (domain handler) role 1
                               (page +:+ "#" +:+ rendered_anchor))
              (inventory s))
           (registered_anchors s ++ [(page, rendered_anchor)]) (html_stash s)
           (env_updates s)).
Proof.
  intros Hid Hrole Hcollect. unfold register_heading.
  rewrite Hid, Hrole, Hcollect. reflexivity.
Qed.

Lemma register_other_anchors_trace (handler : BaseHandler CollectorItem)
    (role uri : string) (anchors : list string) (s : State) :
  let r := register_other_anchors CollectorItem inventory_register handler role uri
                                  anchors s in
  r.1 = Returned () /\
  registered_anchors r.2 = registered_anchors s /\
  html_stash r.2 = html_stash s.
Proof.
  revert s. induction anchors as [|a rest IH]; intros s; [by repeat split|].
  cbn [register_other_anchors]. unfold mbind, M_bind.
  destruct (inventory s !! a).
  - apply IH.
  - unfold register_item.
    destruct (IH (set_inventory
                    (inventory_register (mkInventoryItem a (domain handler) role 2 uri)
                                        (inventory s)) s)) as (H1 & H2 & H3).
    by repeat split.
Qed.

(** The registrar leaves the stash alone, whether it returns or raises. *)
Lemma register_headings_stash (page : string) (handler : BaseHandler CollectorItem)
    (headings : list Element) (s : State) :
  html_stash (register_headings CollectorItem inventory_register page handler
                                headings s).2 = html_stash s.
Proof.
  revert s. induction headings as [|h rest IH]; intros s; [reflexivity|].
  cbn [register_headings]. unfold mbind, M_bind.
  assert (html_stash (register_heading CollectorItem inventory_register page
                                       handler h s).2 = html_stash s) as Hh.
  { unfold register_heading.
    destruct (attrib h !! "id") as [anchor|]; [|reflexivity].
    unfold mbind, M_bind, register_anchor.
    destruct (attrib h !! "data-role") as [role|]; [|reflexivity].
    unfold register_item.
    destruct (collect handler anchor _) as [data|[]]; try reflexivity.
    match goal with
    | |- context [register_other_anchors _ _ _ ?r ?u ?a ?st] =>
        destruct (register_other_anchors_trace handler r u a st) as (_ & _ & H3)
    end.
    exact H3. }
  destruct (register_heading CollectorItem inventory_register page handler h s)
    as [[[]|e] s1]; cbn [snd] in *; [|exact Hh].
  rewrite IH. exact Hh.
Qed.

(** X16.  When the registrar returns for the headings of a block, every
    heading had an [id], and the anchors registered with the page are these
    ids, in the order of the headings, after the ones registered before. *)
Theorem register_headings_anchors (page : string)
    (handler : BaseHandler CollectorItem) (headings : list Element) :
  forall s s' : State,
    register_headings CollectorItem inventory_register page handler headings s =
      (Returned (), s') ->
    exists ids,
      Forall2 (fun heading i => attrib heading !! "id" = Some i) headings ids /\
      registered_anchors s' =
        registered_anchors s ++ map (fun i => (page, i)) ids.
Proof.
  induction headings as [|h rest IH]; intros s s' Hrun.
  - apply ret_returned in Hrun as [_ ->]. exists []. split; [constructor|].
    by rewrite app_nil_r.
  - cbn [register_headings] in Hrun.
    apply bind_returned in Hrun as ([] & s1 & Hh & Hrest).
    destruct (IH _ _ Hrest) as (ids & Hids & Htrace).
    unfold register_heading in Hh.
    destruct (attrib h !! "id") as [anchor|] eqn:Hid; [|discriminate Hh].
    exists (anchor :: ids). split; [by constructor|].
    rewrite Htrace. cbn [map].
    assert (registered_anchors s1 = registered_anchors s ++ [(page, anchor)]) as ->;
      [|by rewrite <- app_assoc].
    apply bind_returned in Hh as ([] & s2 & Hreg & Hh).
    unfold register_anchor in Hreg. injection Hreg as <-.
    destruct (attrib h !! "data-role") as [role|].
    + apply bind_returned in Hh as ([] & s3 & Hitem & Hh).
      unfold register_item in Hitem. injection Hitem as <-.
      destruct (collect handler anchor _) as [data|[]]; try discriminate Hh.
      * match type of Hh with
        | register_other_anchors _ _ _ ?r ?u ?a ?st = _ =>
            destruct (register_other_anchors_trace handler r u a st) as (_ & H2 & _)
        end.
        rewrite Hh in H2. exact H2.
      * apply ret_returned in Hh as [_ ->]. reflexivity.
    + apply ret_returned in Hh as [_ ->]. reflexivity.
Qed.

End RegistrarEdges.

Lemma register_headings_missing_id_witness :
  register_headings string register_first_wins "page.html" sample_handler
    [mkElement "h2" {["data-role" := "class"]} (Some "b") None [];
     mkElement "h3" {["id" := "a.b.c"]} (Some "c") None []] initial_state =
  (Raised (KeyError "id"), initial_state).
Proof.
  exact (register_headings_missing_id string register_first_wins "page.html"
           sample_handler
           (mkElement "h2" {["data-role" := "class"]} (Some "b") None [])
           [mkElement "h3" {["id" := "a.b.c"]} (Some "c") None []]
           initial_state eq_refl).
Defined.

Lemma register_heading_without_role_witness :
  register_heading string register_first_wins "page.html" sample_handler
    (mkElement "h3" {["id" := "a.b.c"]} (Some "c") None []) initial_state =
  (Returned (), mkState ∅ ∅ [("page.html", "a.b.c")] [] []).
Proof.
  exact (register_heading_without_role string register_first_wins "page.html"
           sample_handler (mkElement "h3" {["id" := "a.b.c"]} (Some "c") None [])
           "a.b.c" initial_state eq_refl eq_refl).
Defined.

Lemma register_heading_fallback_fails_witness :
  exists s',
    register_heading string register_first_wins "page.html"
      (faulty_handler false true true)
      (mkElement "h2" {["id" := "a.b"; "data-role" := "class"]} (Some "b") None [])
      initial_state = (Returned (), s') /\
    inventory s' !! "a.b" =
      Some (mkInventoryItem "a.b" "py" "class" 1 "page.html#a.b").
Proof.
  eexists. split.
  - exact (register_heading_fallback_fails string register_first_wins "page.html"
             (faulty_handler false true true)
             (mkElement "h2" {["id" := "a.b"; "data-role" := "class"]} (Some "b")
                        None [])
             "a.b" "class" "not found" initial_state eq_refl eq_refl eq_refl).
  - reflexivity.
Defined.

Lemma register_headings_anchors_witness :
  exists s' ids,
    register_headings string register_first_wins "page.html" sample_handler
      [mkElement "h2" {["id" := "a.b"; "data-role" := "class"]} (Some "b") None [];
       mkElement "h3" {["id" := "a.b.c"]} (Some "c") None []] initial_state =
      (Returned (), s') /\
    registered_anchors s' = map (fun i => ("page.html", i)) ids /\
    length ids = 2%nat.
Proof.
  destruct (register_headings string register_first_wins "page.html" sample_handler
              [mkElement "h2" {["id" := "a.b"; "data-role" := "class"]} (Some "b")
                         None [];
               mkElement "h3" {["id" := "a.b.c"]} (Some "c") None []] initial_state)
    as [[[]|e] s'] eqn:Hrun.
  - destruct (register_headings_anchors string register_first_wins "page.html"
                sample_handler _ initial_state s' Hrun) as (ids & Hids & Htrace).
    exists s', ids. split; [reflexivity|]. split; [exact Htrace|].
    apply Forall2_length in Hids. by rewrite <- Hids.
  - vm_compute in Hrun. discriminate Hrun.
Defined.

(** ** What [run] leaves behind *)

Section RunEffects.
Variable CollectorItem : Type.
Variable safe_load : string -> outcome py_value.
Variable handlers : Handlers CollectorItem.
Variable inventory_register :
  InventoryItem -> gmap string InventoryItem -> gmap string InventoryItem.
Variable placeholder : nat -> string.
Variable parseBlocks : Element -> list string -> Element.
Variable tab_length : nat.
Variable current_page : option string.

Lemma process_block_outputs (identifier yaml_block : string) (heading_level : Z)
    (s : State) :
  same_outputs s
    (_process_block CollectorItem safe_load handlers identifier yaml_block
                    heading_level s).2.
Proof.
  rewrite process_block_resolve.
  destruct (resolve_block safe_load handlers yaml_block heading_level)
    as [[[n handler] options]|e]; [|by repeat split].
  unfold mbind, M_bind, lift.
  destruct (collect_or_fail CollectorItem handler identifier options) as [data|e];
    [|by repeat split].
  unfold update_env_once.
  destruct (decide (n ∈ _updated_envs s)) as [Hin|Hout].
  - destruct (render handler data options); by repeat split.
  - unfold mbind, M_bind, call_update_env, add_updated_env.
    destruct (_update_env handler); [|by repeat split].
    destruct (render handler data options); by repeat split.
Qed.

(** X17.  When [run] returns for a block with an instruction, the parent has
    one more child, at the end: a [div] of class [mkdocstrings] whose text is
    the placeholder of the rendered markup and whose children are the
    headings of the handler.  The markup is the one text added to the stash,
    and the placeholder is the one for its place in the stash. *)
Theorem run_appends_container (parent parent' : Element) (blocks blocks' : list string)
    (s s' : State) (matched : Matched) (m : Match) :
  match_block tab_length blocks = Returned matched ->
  instruction matched = Some m ->
  run CollectorItem safe_load handlers inventory_register placeholder parseBlocks
      tab_length current_page parent blocks s = (Returned (parent', blocks'), s') ->
  exists html handler data s1,
    _process_block CollectorItem safe_load handlers (match_name_group m)
                   (yaml_block matched) (Z.of_nat (match_hashes m)) s =
      (Returned (html, handler, data), s1) /\
    parent' =
      append_child
        (match reparsed matched with
         | Some before => parseBlocks parent [before]
         | None => parent
         end)
        (mkElement "div" {["class" := "mkdocstrings"]}
                   (Some (placeholder (List.length (html_stash s)))) None
                   (get_headings handler data)) /\
    html_stash s' = html_stash s ++ [html].
Proof.
  intros Hmatched Hinstr Hrun. unfold run in Hrun.
  apply bind_returned in Hrun as (matched' & s0 & Hm & Hrun).
  apply lift_returned in Hm as [Hm ->].
  rewrite Hmatched in Hm. injection Hm as <-. rewrite Hinstr in Hrun.
  apply bind_returned in Hrun as (parent1 & s3 & Hparent & Hrun).
  apply ret_returned in Hrun as [[= -> _] ->].
  apply bind_returned in Hparent as ([[html handler] data] & s1 & Hblock & Hparent).
  apply bind_returned in Hparent as (stored & s2 & Hstore & Hparent).
  apply bind_returned in Hparent as ([] & s4 & Hreg & Hparent).
  apply ret_returned in Hparent as [-> ->].
  unfold stash_store in Hstore. injection Hstore as <- <-.
  pose proof (process_block_outputs (match_name_group m) (yaml_block matched)
                (Z.of_nat (match_hashes m)) s) as (_ & _ & Hstash).
  rewrite Hblock in Hstash. cbn [snd] in Hstash.
  exists html, handler, data, s1. split; [exact Hblock|].
  split; [by rewrite Hstash|].
  destruct current_page as [page|].
  - pose proof (register_headings_stash CollectorItem inventory_register page
                  handler (get_headings handler data)
                  (mkState (_updated_envs s1) (inventory s1) (registered_anchors s1)
                           (html_stash s1 ++ [html]) (env_updates s1))) as Hkeep.
    rewrite Hreg in Hkeep. cbn [snd html_stash] in Hkeep.
    by rewrite Hkeep, Hstash.
  - apply ret_returned in Hreg as [_ ->]. cbn [html_stash]. by rewrite Hstash.
Qed.

(** X18.  Without an instruction in the first block, [run] calls no handler
    and changes neither the parent nor the state; on an empty list of blocks
    it raises [IndexError]. *)
Theorem run_without_instruction (parent : Element) (block : string)
    (others : list string) (s : State) :
  run CollectorItem safe_load handlers inventory_register placeholder parseBlocks
      tab_length current_page parent [] s = (Raised IndexError, s) /\
  (test block = false ->
   exists blocks',
     run CollectorItem safe_load handlers inventory_register placeholder parseBlocks
         tab_length current_page parent (block :: others) s =
       (Returned (parent, blocks'), s)).
Proof.
  split; [reflexivity|].
  intros Htest. unfold test in Htest. unfold run, match_block.
  destruct (regex_search block); [discriminate Htest|].
  destruct (detab tab_length block) as [detabbed rest].
  destruct others as [|next others'].
  - eexists. reflexivity.
  - destruct (negb (str_truthy detabbed) && starts_with_config next);
      eexists; reflexivity.
Qed.

End RunEffects.

(** X19.  Without a current page, [run] registers nothing: when it returns,
    the inventory and the registered anchors are as before. *)
Theorem run_without_page (CollectorItem : Type)
    (safe_load : string -> outcome py_value) (handlers : Handlers CollectorItem)
    (inventory_register :
       InventoryItem -> gmap string InventoryItem -> gmap string InventoryItem)
    (placeholder : nat -> string) (parseBlocks : Element -> list string -> Element)
    (tab_length : nat) (parent : Element) (blocks : list string) (s s' : State)
    (result : Element * list string) :
  run CollectorItem safe_load handlers inventory_register placeholder parseBlocks
      tab_length None parent blocks s = (Returned result, s') ->
  inventory s' = inventory s /\ registered_anchors s' = registered_anchors s.
Proof.
  intros Hrun. unfold run in Hrun.
  apply bind_returned in Hrun as (matched & s0 & Hm & Hrun).
  apply lift_returned in Hm as [_ ->].
  apply bind_returned in Hrun as (parent1 & s3 & Hparent & Hrun).
  apply ret_returned in Hrun as [_ ->].
  destruct (instruction matched) as [m|].
  - apply bind_returned in Hparent as ([[html handler] data] & s1 & Hblock & Hparent).
    apply bind_returned in Hparent as (stored & s2 & Hstore & Hparent).
    apply bind_returned in Hparent as ([] & s4 & Hreg & Hparent).
    apply ret_returned in Hparent as [_ ->].
    apply ret_returned in Hreg as [_ ->].
    unfold stash_store in Hstore. injection Hstore as _ <-.
    pose proof (process_block_outputs CollectorItem safe_load handlers
                  (match_name_group m) (yaml_block matched)
                  (Z.of_nat (match_hashes m)) s) as (Hinv & Hanchors & _).
    rewrite Hblock in Hinv, Hanchors. by split.
  - apply ret_returned in Hparent as [_ ->]. by split.
Qed.

Lemma run_appends_container_witness :
  exists parent' s',
    run string sample_safe_load sample_handlers register_first_wins
        sample_placeholder sample_parseBlocks 4 (Some "page.html")
        (mkElement "body" ∅ None None []) [example_block] initial_state =
      (Returned (parent', ["suffix"]), s') /\
    html_stash s' = ["<p>a.b</p>"] /\
    (text <$> subelements parent') = [Some ("prefix" +:+ newline); Some "stash:0"].
Proof.
  destruct (run string sample_safe_load sample_handlers register_first_wins
                sample_placeholder sample_parseBlocks 4 (Some "page.html")
                (mkElement "body" ∅ None None []) [example_block] initial_state)
    as [[[parent' blocks']|e] s'] eqn:Hrun.
  - destruct (run_appends_container string sample_safe_load sample_handlers
                register_first_wins sample_placeholder sample_parseBlocks 4
                (Some "page.html") (mkElement "body" ∅ None None []) parent'
                [example_block] blocks' initial_state s'
                (mkMatched (Some ("prefix" +:+ newline))
                           (Some (mkMatch 7 14 0 "a.b")) (newline +:+ "opt: 1")
                           "suffix" [])
                (mkMatch 7 14 0 "a.b") eq_refl eq_refl Hrun)
      as (html & handler & data & s1 & Hblock & -> & Hstash).
    assert (blocks' = ["suffix"]) as -> by (vm_compute in Hrun; congruence).
    assert (html = "<p>a.b</p>") as -> by (vm_compute in Hblock; congruence).
    eexists _, s'. split; [reflexivity|]. split; [exact Hstash|]. reflexivity.
  - vm_compute in Hrun. discriminate Hrun.
Defined.

Lemma run_without_instruction_witness :
  exists blocks',
    run string sample_safe_load sample_handlers register_first_wins
        sample_placeholder sample_parseBlocks 4 (Some "page.html")
        (mkElement "body" ∅ None None []) ["plain text"; "more"] initial_state =
      (Returned (mkElement "body" ∅ None None [], blocks'), initial_state).
Proof.
  exact (proj2 (run_without_instruction string sample_safe_load sample_handlers
                  register_first_wins sample_placeholder sample_parseBlocks 4
                  (Some "page.html") (mkElement "body" ∅ None None [])
                  "plain text" ["more"] initial_state) eq_refl).
Defined.

Lemma run_without_page_witness :
  exists result s',
    run string sample_safe_load sample_handlers register_first_wins
        sample_placeholder sample_parseBlocks 4 None
        (mkElement "body" ∅ None None []) [example_block] initial_state =
      (Returned result, s') /\
    inventory s' = ∅ /\ registered_anchors s' = [].
Proof.
  destruct (run string sample_safe_load sample_handlers register_first_wins
                sample_placeholder sample_parseBlocks 4 None
                (mkElement "body" ∅ None None []) [example_block] initial_state)
    as [[result|e] s'] eqn:Hrun.
  - exists result, s'. split; [reflexivity|].
    exact (run_without_page string sample_safe_load sample_handlers
             register_first_wins sample_placeholder sample_parseBlocks 4
             (mkElement "body" ∅ None None []) [example_block] initial_state s'
             result Hrun).
  - vm_compute in Hrun. discriminate Hrun.
Defined.

Lemma run_env_updates_witness :
  exists result s',
    run string sample_safe_load sample_handlers register_first_wins
        sample_placeholder sample_parseBlocks 4 (Some "page.html")
        (mkElement "body" ∅ None None []) [example_block] initial_state =
      (Returned result, s') /\
    envs_recorded s' /\
    env_updates s' = ["python"].
Proof.
  destruct (run string sample_safe_load sample_handlers register_first_wins
                sample_placeholder sample_parseBlocks 4 (Some "page.html")
                (mkElement "body" ∅ None None []) [example_block] initial_state)
    as [[result|e] s'] eqn:Hrun.
  - exists result, s'. split; [reflexivity|].
    assert (envs_recorded initial_state) as Hrec.
    { intros n. split; intros H.
      - by apply not_elem_of_empty in H.
      - by apply not_elem_of_nil in H. }
    destruct (run_env_updates string sample_safe_load sample_handlers
                register_first_wins sample_placeholder sample_parseBlocks 4
                (Some "page.html") (mkElement "body" ∅ None None [])
                [example_block] initial_state s' result Hrec Hrun)
      as (Hrec' & matched & Hmatched & Hinstr).
    split; [exact Hrec'|].
    injection Hmatched as <-. cbn [instruction yaml_block] in Hinstr.
    destruct Hinstr as (n & Hn & Hupdates & _).
    injection Hn as <-. exact Hupdates.
  - vm_compute in Hrun. discriminate Hrun.
Defined.

(** ** A block and the pass over its container *)

Lemma process_children_without_duplicates (els : list Element) :
  forallb (fun c => negb (is_duplicate_container c) && no_duplicate_below c) els = true ->
  process_children els = (els, "").
Proof.
  induction els as [|c cs IH]; intros Hall; [reflexivity|].
  cbn [forallb] in Hall. apply andb_true_iff in Hall as [Hc Hcs].
  apply andb_true_iff in Hc as [Hnd Hbelow]. apply negb_true_iff in Hnd.
  cbn [process_children]. rewrite (IH Hcs), Hnd.
  rewrite (remove_without_duplicates c Hbelow). reflexivity.
Qed.

(** X20.  The pass over a parent to which [run] has just added a container,
    when nothing else in the parent is a container: the container is gone and
    its text, the placeholder, is at the end of the tail of the child that
    stood before it; in a parent that had no child it is at the end of the
    parent's text.  Nothing else changes. *)
Theorem remove_after_append (tg : string) (at_ : gmap string string)
    (tx tl : option string) (init : list Element) (last el : Element) :
  no_duplicate_below (mkElement tg at_ tx tl (init ++ [last])) = true ->
  is_duplicate_container el = true ->
  _remove_duplicated_headings
    (append_child (mkElement tg at_ tx tl (init ++ [last])) el) =
    mkElement tg at_ tx tl (init ++ [carry_into_tail (or_empty (text el)) last]) /\
  _remove_duplicated_headings (append_child (mkElement tg at_ tx tl []) el) =
    mkElement tg at_ (carry_into_text (or_empty (text el)) tx) tl [].
Proof.
  intros Hclean Hdup. unfold append_child. cbn [tag attrib text tail subelements].
  split.
  - rewrite remove_duplicated_headings_unfold.
    cbn [no_duplicate_below] in Hclean. rewrite forallb_app in Hclean.
    apply andb_true_iff in Hclean as [Hinit Hlast].
    cbn [forallb] in Hlast. rewrite andb_true_r in Hlast.
    apply andb_true_iff in Hlast as [Hnd Hbelow]. apply negb_true_iff in Hnd.
    assert (process_children [last; el] =
            ([carry_into_tail (or_empty (text el)) last], "")) as Htwo.
    { cbn [process_children]. rewrite Hdup, Hnd, append_empty_r.
      by rewrite (remove_without_duplicates last Hbelow). }
    rewrite <- app_assoc. cbn [app].
    rewrite process_children_app by (by rewrite Htwo).
    rewrite Htwo, (process_children_without_duplicates init Hinit). reflexivity.
  - rewrite remove_duplicated_headings_unfold. cbn [app process_children].
    rewrite Hdup, append_empty_r. reflexivity.
Qed.

Lemma remove_after_append_witness :
  _remove_duplicated_headings
    (append_child
       (mkElement "body" ∅ None None [mkElement "p" ∅ (Some "intro") None []])
       (mkElement "div" {["class" := "mkdocstrings"]} (Some "stash:0") None
                  [mkElement "h2" {["id" := "a.b"]} (Some "b") None []])) =
  mkElement "body" ∅ None None [mkElement "p" ∅ (Some "intro") (Some "stash:0") []].
Proof.
  exact (proj1 (remove_after_append "body" ∅ None None []
                  (mkElement "p" ∅ (Some "intro") None [])
                  (mkElement "div" {["class" := "mkdocstrings"]} (Some "stash:0") None
                             [mkElement "h2" {["id" := "a.b"]} (Some "b") None []])
                  eq_refl eq_refl)).
Defined.

Lemma fold_right_append_acc {A : Type} (g : A -> string) (l : list A) (acc : string) :
  fold_right (fun c a => g c +:+ a) acc l =
  fold_right (fun c a => g c +:+ a) "" l +:+ acc.
Proof.
  induction l as [|c l IH]; [reflexivity|]. cbn [fold_right].
  by rewrite IH, append_assoc.
Qed.

(** X21.  For any parent, the text of the tree after the pass, when a
    container was added at the end of the parent, is the text after the pass
    without the container followed by the text of the container: the
    placeholder of a block comes after everything that was in the parent, and
    neither the headings of the container nor its tail show up. *)
Theorem remove_after_append_text (parent el : Element) :
  is_duplicate_container el = true ->
  inner_text (_remove_duplicated_headings (append_child parent el)) =
  inner_text (_remove_duplicated_headings parent) +:+ or_empty (text el).
Proof.
  intros Hdup. rewrite !remove_inner_text.
  destruct parent as [tg at_ tx tl ch]. unfold append_child.
  cbn [tag attrib text tail subelements kept_text].
  rewrite fold_right_app. cbn [fold_right]. rewrite Hdup.
  rewrite (fold_right_append_acc
             (fun c => if is_duplicate_container c then or_empty (text c)
                       else kept_text c +:+ or_empty (tail c))).
  by rewrite append_empty_r, append_assoc.
Qed.

Lemma remove_after_append_text_witness :
  inner_text
    (_remove_duplicated_headings
       (append_child
          (mkElement "body" ∅ (Some "t") None
                     [mkElement "p" ∅ (Some "intro") (Some "!") []])
          (mkElement "div" {["class" := "mkdocstrings"]} (Some "stash:0") (Some "x")
                     [mkElement "h2" {["id" := "a.b"]} (Some "b") None []]))) =
  "tintro!stash:0".
Proof.
  exact (remove_after_append_text
           (mkElement "body" ∅ (Some "t") None
                      [mkElement "p" ∅ (Some "intro") (Some "!") []])
           (mkElement "div" {["class" := "mkdocstrings"]} (Some "stash:0") (Some "x")
                      [mkElement "h2" {["id" := "a.b"]} (Some "b") None []])
           eq_refl).
Defined.

(** ** TOC labels, again *)

Lemma label_overrides_after (nm : string) (label : option string) :
  label_overrides (if label_overrides nm label then or_empty label else nm) label =
  false.
Proof.
  destruct (label_overrides nm label) eqn:E; [|exact E].
  apply label_overrides_true in E as (l & -> & _ & _). cbn.
  by rewrite String.eqb_refl, andb_false_r.
Qed.

Lemma override_token_idempotent (t : TocToken) :
  override_token (override_token t) = override_token t.
Proof.
  induction t as [lv i nm label ch IH] using TocToken_nested_ind.
  cbn [override_token]. rewrite label_overrides_after. f_equal.
  rewrite map_map. induction IH as [|c cs Hc _ IHcs]; [reflexivity|].
  cbn [map]. by rewrite Hc, IHcs.
Qed.

(** X22.  Running the TOC pass a second time changes nothing: after one
    pass no token has a label that would still be written over its name. *)
Theorem override_toc_labels_idempotent (tokens : list TocToken) :
  _override_toc_labels (_override_toc_labels tokens) = _override_toc_labels tokens.
Proof.
  unfold _override_toc_labels. rewrite map_map.
  induction tokens as [|t ts IH]; [reflexivity|].
  cbn [map]. by rewrite override_token_idempotent, IH.
Qed.

(** X23.  After the pass, every token of the forest that has a non-empty
    label is named by its label. *)
Theorem override_toc_labels_names (tokens : list TocToken) (path : list nat)
    (t' : TocToken) (label : string) :
  token_at path (_override_toc_labels tokens) = Some t' ->
  data_toc_label t' = Some label ->
  label <> "" ->
  name t' = label.
Proof.
  intros Hat Hlabel Hne. rewrite token_at_override in Hat.
  destruct (token_at path tokens) as [t|]; [|discriminate Hat].
  cbn in Hat. injection Hat as <-.
  destruct (override_token_fields t) as (_ & _ & Hd). rewrite Hd in Hlabel.
  rewrite override_token_name, Hlabel.
  destruct (label_overrides (name t) (Some label)) eqn:E; [reflexivity|].
  unfold label_overrides, str_truthy in E.
  apply andb_false_iff in E as [E|E]; apply negb_false_iff in E;
    apply String.eqb_eq in E; congruence.
Qed.

Lemma override_toc_labels_names_witness :
  name (Token 3 "b" "Baz" (Some "Baz") []) = "Baz".
Proof.
  exact (override_toc_labels_names
           [Token 2 "a" "Foo" None [Token 3 "b" "Bar" (Some "Baz") []]]
           [0%nat; 0%nat] (Token 3 "b" "Baz" (Some "Baz") []) "Baz"
           eq_refl eq_refl ltac:(discriminate)).
Defined.

(** ** [test] and configurations that are not mappings *)

Lemma search_lines_some (lines : list string) (offset : nat) :
  is_Some (search_lines offset lines) <->
  Exists (fun line => is_Some (match_line line)) lines.
Proof.
  revert offset. induction lines as [|line lines IH]; intros offset.
  - split; [intros [m H]; discriminate H|intros H; by apply Exists_nil in H].
  - cbn [search_lines]. rewrite Exists_cons.
    destruct (match_line line) as [[h nm]|] eqn:E.
    + split; [intros _; left|intros _]; by eexists.
    + rewrite IH. split; [by right|]. intros [[v Hv]|H]; [discriminate Hv|exact H].
Qed.

(** X25.  [test] accepts a block exactly when one of its lines, the first or
    any other, is an instruction line. *)
Theorem test_any_line (block : string) :
  test block = true <->
  Exists (fun line => is_Some (match_line line)) (split_lines block).
Proof.
  rewrite <- (search_lines_some (split_lines block) 0).
  unfold test, regex_search.
  destruct (search_lines 0 (split_lines block)) as [m|].
  - split; [intros _; by eexists|reflexivity].
  - split; [discriminate|]. intros [m H]. discriminate H.
Qed.

(** X26.  A configuration text that loads as a value that is true and is
    not a mapping (a plain word, a list) makes [_process_block] raise
    [AttributeError] when the options of the configuration are read, once the
    handler is resolved: nothing is collected and the state is unchanged. *)
Theorem process_block_config_not_a_mapping (CollectorItem : Type)
    (safe_load : string -> outcome py_value) (handlers : Handlers CollectorItem)
    (identifier yaml_block : string) (heading_level : Z) (s : State)
    (loaded : py_value) (handler_name : string)
    (handler_items : list (string * py_value)) (handler : BaseHandler CollectorItem) :
  safe_load yaml_block = Returned loaded ->
  truthy loaded = true ->
  (forall items, loaded <> PyDict items) ->
  get_handler_name handlers loaded = Returned handler_name ->
  get_handler_config handlers handler_name = Returned (PyDict handler_items) ->
  get_handler handlers handler_name (PyDict handler_items) = Returned handler ->
  _process_block CollectorItem safe_load handlers identifier yaml_block heading_level s =
  (Raised AttributeError, s).
Proof.
  intros Hload Htrue Hnot Hname Hconfig Hhandler.
  rewrite process_block_resolve.
  unfold resolve_block, load_config, mbind, outcome_bind.
  rewrite Hload. cbn [mret outcome_ret]. rewrite Htrue, Hname, Hconfig, Hhandler.
  cbn [py_get].
  destruct loaded; try reflexivity. by destruct (Hnot items).
Qed.

Lemma process_block_config_not_a_mapping_witness :
  _process_block string word_load default_handlers "a.b" "foo" 0 initial_state =
  (Raised AttributeError, initial_state).
Proof.
  apply (process_block_config_not_a_mapping string word_load default_handlers
           "a.b" "foo" 0 initial_state (PyStr "foo") "python" [] sample_handler);
    try reflexivity.
  intros items H. discriminate H.
Defined.

(** ** The registrar step of [run] *)

Section RunRegistrar.
Variable CollectorItem : Type.
Variable safe_load : string -> outcome py_value.
Variable handlers : Handlers CollectorItem.
Variable inventory_register :
  InventoryItem -> gmap string InventoryItem -> gmap string InventoryItem.
Variable placeholder : nat -> string.
Variable parseBlocks : Element -> list string -> Element.
Variable tab_length : nat.

(** What is needed of [Inventory.register]: under a name that has no entry,
    the entry is stored. *)
Hypothesis register_absent : forall item inv,
  inv !! item_name item = None ->
  inventory_register item inv = <[item_name item := item]> inv.

Lemma register_headings_app (page : string) (handler : BaseHandler CollectorItem)
    (before rest : list Element) :
  forall s s' : State,
    register_headings CollectorItem inventory_register page handler
                      (before ++ rest) s = (Returned (), s') ->
    exists s1,
      register_headings CollectorItem inventory_register page handler before s =
        (Returned (), s1) /\
      register_headings CollectorItem inventory_register page handler rest s1 =
        (Returned (), s').
Proof.
  induction before as [|h before IH]; intros s s' Hrun.
  - exists s. split; [reflexivity|exact Hrun].
  - cbn [app register_headings] in Hrun.
    apply bind_returned in Hrun as ([] & s0 & Hh & Hrun).
    destruct (IH _ _ Hrun) as (s1 & Hbefore & Hrest).
    exists s1. split; [|exact Hrest].
    cbn [register_headings]. unfold mbind, M_bind. rewrite Hh. exact Hbefore.
Qed.

(** One heading with a role marker for which the loop body returns. *)
Lemma register_heading_returned (page : string) (handler : BaseHandler CollectorItem)
    (heading : Element) (role : string) (s1 s2 : State) :
  attrib heading !! "data-role" = Some role ->
  register_heading CollectorItem inventory_register page handler heading s1 =
    (Returned (), s2) ->
  exists rendered_anchor,
    attrib heading !! "id" = Some rendered_anchor /\
    registered_anchors s2 = registered_anchors s1 ++ [(page, rendered_anchor)] /\
    let uri := page +:+ "#" +:+ rendered_anchor in
    let primary :=
      inventory_register
        (mkInventoryItem rendered_anchor (domain handler) role 1 uri) (inventory s1) in
    match collect handler rendered_anchor (Plain (fallback_config handler)) with
    | Returned data_object =>
        forall anchor : string,
          inventory s2 !! anchor =
          match primary !! anchor with
          | Some item => Some item
          | None =>
              if decide (anchor ∈ get_anchors handler data_object)
              then Some (mkInventoryItem anchor (domain handler) role 2 uri)
              else None
          end
    | Raised _ => inventory s2 = primary
    end.
Proof.
  intros Hrole Hrun.
  destruct (attrib heading !! "id") as [rendered_anchor|] eqn:Hid.
  2:{ unfold register_heading in Hrun. rewrite Hid in Hrun. discriminate Hrun. }
  exists rendered_anchor. split; [reflexivity|].
  destruct (collect handler rendered_anchor (Plain (fallback_config handler)))
    as [data_object|e] eqn:Hcollect.
  - destruct (register_heading_other_anchors CollectorItem inventory_register
                register_absent page handler heading rendered_anchor role
                data_object s1 Hid Hrole Hcollect) as (s2' & Hrun' & Hinv).
    rewrite Hrun in Hrun'. injection Hrun' as <-. split; [|exact Hinv].
    unfold register_heading in Hrun. rewrite Hid, Hrole, Hcollect in Hrun.
    apply bind_returned in Hrun as ([] & sa & Ha & Hrun).
    unfold register_anchor in Ha. injection Ha as <-.
    apply bind_returned in Hrun as ([] & sb & Hb & Hrun).
    unfold register_item in Hb. injection Hb as <-.
    match type of Hrun with
    | register_other_anchors _ _ _ ?r ?u ?a ?st = _ =>
        destruct (register_other_anchors_trace CollectorItem inventory_register
                    handler r u a st) as (_ & H2 & _)
    end.
    rewrite Hrun in H2. exact H2.
  - unfold register_heading in Hrun. rewrite Hid, Hrole, Hcollect in Hrun.
    apply bind_returned in Hrun as ([] & sa & Ha & Hrun).
    unfold register_anchor in Ha. injection Ha as <-.
    apply bind_returned in Hrun as ([] & sb & Hb & Hrun).
    unfold register_item in Hb. injection Hb as <-.
    destruct e; try discriminate Hrun.
    apply ret_returned in Hrun as [_ ->]. split; reflexivity.
Qed.

(** C4.  In a call of [run] that returns for a block with an instruction, on
    a page: the state [run] ends in is the one the registrar loop over the
    headings of the handler ends in, started once [_process_block] has
    returned and the markup is stored; and
    for every heading of these that carries a role marker, the heading has an
    id, this id is collected again with the fallback configuration of the
    handler, and, when that returns, the inventory after the heading is the
    inventory as it stands after the registration of the id with priority 1,
    with in addition, for each anchor [get_anchors] returns that has no entry
    there, an entry of priority 2 with the domain of the handler, the role of
    the heading and the uri [page#id]; an anchor that already has an entry
    keeps it.  When the collection with the fallback configuration fails, no
    other anchor is registered for the heading. *)
Theorem run_registers_other_anchors (page : string) (parent parent' : Element)
    (blocks blocks' : list string) (s s' : State) (matched : Matched) (m : Match) :
  match_block tab_length blocks = Returned matched ->
  instruction matched = Some m ->
  run CollectorItem safe_load handlers inventory_register placeholder parseBlocks
      tab_length (Some page) parent blocks s = (Returned (parent', blocks'), s') ->
  exists html handler data sb stored s0,
    _process_block CollectorItem safe_load handlers (match_name_group m)
                   (yaml_block matched) (Z.of_nat (match_hashes m)) s =
      (Returned (html, handler, data), sb) /\
    stash_store placeholder html sb = (Returned stored, s0) /\
    register_headings CollectorItem inventory_register page handler
                      (get_headings handler data) s0 = (Returned (), s') /\
    forall before heading after role,
      get_headings handler data = before ++ heading :: after ->
      attrib heading !! "data-role" = Some role ->
      exists rendered_anchor s1 s2,
        attrib heading !! "id" = Some rendered_anchor /\
        register_headings CollectorItem inventory_register page handler before s0 =
          (Returned (), s1) /\
        register_heading CollectorItem inventory_register page handler heading s1 =
          (Returned (), s2) /\
        register_headings CollectorItem inventory_register page handler after s2 =
          (Returned (), s') /\
        let uri := page +:+ "#" +:+ rendered_anchor in
        let primary :=
          inventory_register
            (mkInventoryItem rendered_anchor (domain handler) role 1 uri)
            (inventory s1) in
        match collect handler rendered_anchor (Plain (fallback_config handler)) with
        | Returned data_object =>
            forall anchor : string,
              inventory s2 !! anchor =
              match primary !! anchor with
              | Some item => Some item
              | None =>
                  if decide (anchor ∈ get_anchors handler data_object)
                  then Some (mkInventoryItem anchor (domain handler) role 2 uri)
                  else None
              end
        | Raised _ => inventory s2 = primary
        end.
Proof.
  intros Hmatched Hinstr Hrun. unfold run in Hrun.
  apply bind_returned in Hrun as (matched' & sm & Hm & Hrun).
  apply lift_returned in Hm as [Hm ->].
  rewrite Hmatched in Hm. injection Hm as <-. rewrite Hinstr in Hrun.
  apply bind_returned in Hrun as (parent1 & s3 & Hparent & Hrun).
  apply ret_returned in Hrun as [_ ->].
  apply bind_returned in Hparent as ([[html handler] data] & sb & Hblock & Hparent).
  apply bind_returned in Hparent as (stored & s0 & Hstore & Hparent).
  apply bind_returned in Hparent as ([] & s4 & Hreg & Hparent).
  apply ret_returned in Hparent as [_ ->].
  exists html, handler, data, sb, stored, s0.
  split; [exact Hblock|]. split; [exact Hstore|]. split; [exact Hreg|].
  intros before heading after role Hheadings Hrole.
  rewrite Hheadings in Hreg.
  destruct (register_headings_app _ _ _ _ _ _ Hreg) as (s1 & Hbefore & Hrest).
  cbn [register_headings] in Hrest.
  apply bind_returned in Hrest as ([] & s2 & Hheading & Hafter).
  destruct (register_heading_returned _ _ _ _ _ _ Hrole Hheading)
    as (rendered_anchor & Hid & _ & Hinv).
  exists rendered_anchor, s1, s2.
  split; [exact Hid|]. split; [exact Hbefore|]. split; [exact Hheading|].
  split; [exact Hafter|exact Hinv].
Qed.

End RunRegistrar.

Lemma run_registers_other_anchors_witness :
  exists parent' s',
    run string sample_safe_load sample_handlers register_first_wins
        sample_placeholder sample_parseBlocks 4 (Some "page.html")
        (mkElement "body" ∅ None None []) [example_block] initial_state =
      (Returned (parent', ["suffix"]), s') /\
    inventory s' !! "a.b" =
      Some (mkInventoryItem "a.b" "py" "class" 1 "page.html#a.b") /\
    inventory s' !! "a.b-alias" =
      Some (mkInventoryItem "a.b-alias" "py" "class" 2 "page.html#a.b").
Proof.
  destruct (run string sample_safe_load sample_handlers register_first_wins
                sample_placeholder sample_parseBlocks 4 (Some "page.html")
                (mkElement "body" ∅ None None []) [example_block] initial_state)
    as [[[parent' blocks']|e] s'] eqn:Hrun.
  - destruct (run_registers_other_anchors string sample_safe_load sample_handlers
                register_first_wins sample_placeholder sample_parseBlocks 4
                register_first_wins_absent "page.html"
                (mkElement "body" ∅ None None []) parent' [example_block] blocks'
                initial_state s'
                (mkMatched (Some ("prefix" +:+ newline))
                           (Some (mkMatch 7 14 0 "a.b")) (newline +:+ "opt: 1")
                           "suffix" [])
                (mkMatch 7 14 0 "a.b") eq_refl eq_refl Hrun)
      as (html & handler & data & sb & stored & s0 & Hblock & Hstore & Hreg & Hall).
    assert (blocks' = ["suffix"]) as -> by (vm_compute in Hrun; congruence).
    exists parent', s'. split; [reflexivity|].
    assert (handler = sample_handler /\ data = "a.b" /\ inventory s0 = ∅)
      as (-> & -> & Hempty).
    { vm_compute in Hblock. injection Hblock as <- <- <- <-.
      vm_compute in Hstore. injection Hstore as _ <-. by repeat split. }
    destruct (Hall []
                (mkElement "h2" {["id" := "a.b"; "data-role" := "class"]}
                           (Some "a.b") None [])
                [] "class" eq_refl eq_refl)
      as (rendered_anchor & s1 & s2 & Hid & Hbefore & _ & Hafter & Hinv).
    injection Hid as <-. injection Hbefore as <-. injection Hafter as <-.
    cbn [collect sample_handler] in Hinv. rewrite Hempty in Hinv.
    split; rewrite Hinv; reflexivity.
  - vm_compute in Hrun. discriminate Hrun.
Defined.
